(** * TCP acknowledgment server and load-generating client

    A shallow embedding of [tcp_server.py] and [tcp_client.py], and the
    properties of their connection handling, load loops and metrics
    reporting.

    Conventions of the embedding.
    - The metrics dictionaries have a fixed set of keys and become records.
    - [time.time()] values and latencies are binary64 numbers in Python;
      they are modelled as rationals ([Q]).  The differences and sums of
      clock readings taken while a test runs are exact.  Where rounding
      decides what is reported, the operations are those of binary64, from
      [Binary64]: the latency statistics ([l * 1000], [sum] and the division
      of the average) and the indices [int(len(xs) * 0.95)] and
      [int(len(xs) * 0.99)].
    - Sockets, the clock and the thread scheduler are the environment: they
      appear as oracles or as scripts of outcomes given to the functions.
    - [print] becomes an event appended to an output list.  The console is
      taken to work; the one line that carries received text can fail to
      be printed, and the environment says when. *)

From Stdlib Require Import Strings.Byte Ascii String DecimalString.
From Stdlib Require Import ZArith QArith Qabs Qminmax Qround Lia Lqa Bool List.
From Stdlib Require Import Sorted Permutation.
Import ListNotations.
Local Open Scope Z_scope.

(* ================================================================== *)
(** * Part I: definitions *)
(* ================================================================== *)

(** ** Binary64 arithmetic *)

Module Binary64.

(** [round x] is the binary64 number nearest to the rational [x], ties to
    even: 53 significant bits, or a multiple of [2^-1074] below [2^-1022].
    With [l] the exponent of [x] ([2^l <= |x| < 2^(l+1)]) the result is the
    multiple of [2^e], [e = max (l - 52) (-1074)], nearest to [x].  Results
    of magnitude [2^1024] and more, which binary64 turns into infinities,
    are outside the model. *)
Definition round (x : Q) : Q :=
  match Qnum x with
  | Z0 => 0%Q
  | _ =>
    let n := Z.abs (Qnum x) in
    let d := Zpos (Qden x) in
    let k := Z.log2 n - Z.log2 d in
    let l := if d * 2 ^ Z.max 0 k <=? n * 2 ^ Z.max 0 (- k)
             then k else k - 1 in
    let e := Z.max (l - 52) (-1074) in
    let num := n * 2 ^ Z.max 0 (- e) in
    let den := d * 2 ^ Z.max 0 e in
    let q := num / den in
    let r := num mod den in
    let m := if (den <? 2 * r) || ((2 * r =? den) && Z.odd q)
             then q + 1 else q in
    Qred (Qmake (Z.sgn (Qnum x) * m * 2 ^ Z.max 0 e)
                (Z.to_pos (2 ^ Z.max 0 (- e))))
  end.

(** [x + y], [x - y], [x * y] and [x / y] on binary64 numbers: the exact
    result, rounded once. *)
Definition add (x y : Q) : Q := round (x + y).
Definition mul (x y : Q) : Q := round (x * y).
Definition div (x y : Q) : Q := round (x / y).

(** [float(n)] for an integer. *)
Definition of_int (n : Z) : Q := round (inject_Z n).

(** *** Products of a length and a literal in [0.5, 1) *)

(** A positive double below [2^53] is written [N * 2^-53] for an integer
    [N]; [round53 N] is the nearest integer to [N] with at most 53
    significant bits, ties to even: the rounding of IEEE 754 binary64. *)
Definition round53 (N : Z) : Z :=
  let s := Z.log2 N - 52 in
  if s <=? 0 then N
  else
    let q := N / 2 ^ s in
    let r := N mod 2 ^ s in
    if (2 ^ (s - 1) <? r) || ((r =? 2 ^ (s - 1)) && Z.odd q)
    then (q + 1) * 2 ^ s
    else q * 2 ^ s.

(** The literals [0.95] and [0.99] are the doubles [m * 2^-53] below
    (hexadecimal [0x1.e666666666666p-1] and [0x1.fae147ae147aep-1]). *)
Definition m0_95 : Z := 8556839292003942.
Definition m0_99 : Z := 8917127262193582.

(** [int(n * c)] for an integer [0 <= n < 2^53] and the double
    [c = m * 2^-53]: [n] converts exactly, the product is rounded once,
    and [int] truncates. *)
Definition int_mul (n m : Z) : Z := round53 (n * m) / 2 ^ 53.

End Binary64.

(** ** UTF-8, as [bytes.decode('utf-8')] and [str.encode('utf-8')] *)

Module Utf8.

Definition byte_to_Z (b : byte) : Z := Z.of_N (Byte.to_N b).

Definition byte_of_Z (z : Z) : byte :=
  match Byte.of_N (Z.to_N z) with
  | Some b => b
  | None => x00
  end.

Definition cont (b : Z) : bool := (128 <=? b) && (b <=? 191).

Definition surrogate (c : Z) : bool := (55296 <=? c) && (c <=? 57343).

(** Strict decoding to code points: [None] where Python raises
    [UnicodeDecodeError] (stray continuation bytes, overlong forms,
    surrogates, code points above U+10FFFF, truncated sequences). *)
Fixpoint decode_points (bs : list Z) : option (list Z) :=
  match bs with
  | [] => Some []
  | b0 :: r0 =>
    if b0 <? 128 then option_map (cons b0) (decode_points r0)
    else if b0 <? 194 then None
    else if b0 <? 224 then
      match r0 with
      | b1 :: r1 =>
        if cont b1
        then option_map (cons ((b0 - 192) * 64 + (b1 - 128))) (decode_points r1)
        else None
      | _ => None
      end
    else if b0 <? 240 then
      match r0 with
      | b1 :: b2 :: r2 =>
        let c := (b0 - 224) * 4096 + (b1 - 128) * 64 + (b2 - 128) in
        if cont b1 && cont b2 && (2048 <=? c) && negb (surrogate c)
        then option_map (cons c) (decode_points r2)
        else None
      | _ => None
      end
    else if b0 <? 245 then
      match r0 with
      | b1 :: b2 :: b3 :: r3 =>
        let c := (b0 - 240) * 262144 + (b1 - 128) * 4096
                 + (b2 - 128) * 64 + (b3 - 128) in
        if cont b1 && cont b2 && cont b3 && (65536 <=? c) && (c <=? 1114111)
        then option_map (cons c) (decode_points r3)
        else None
      | _ => None
      end
    else None
  end.

Definition decode (data : list byte) : option (list Z) :=
  decode_points (map byte_to_Z data).

Definition encode_point (c : Z) : option (list Z) :=
  if c <? 0 then None
  else if c <? 128 then Some [c]
  else if c <? 2048 then Some [192 + c / 64; 128 + c mod 64]
  else if surrogate c then None
  else if c <? 65536 then
    Some [224 + c / 4096; 128 + (c / 64) mod 64; 128 + c mod 64]
  else if c <=? 1114111 then
    Some [240 + c / 262144; 128 + (c / 4096) mod 64;
          128 + (c / 64) mod 64; 128 + c mod 64]
  else None.

(** [None] where Python raises [UnicodeEncodeError]. *)
Fixpoint encode (s : list Z) : option (list byte) :=
  match s with
  | [] => Some []
  | c :: s' =>
    match encode_point c, encode s' with
    | Some bs, Some rest => Some (map byte_of_Z bs ++ rest)
    | _, _ => None
    end
  end.

End Utf8.

(** ** Python built-ins used by the reporters *)

Module Py.

(** Exceptions the modelled code can raise. *)
Inductive exn : Type :=
| IndexError
| TypeError
| ValueError
| ZeroDivisionError.

Inductive result (A : Type) : Type :=
| Ok (a : A)
| Raise (e : exn).
Arguments Ok {A} a.
Arguments Raise {A} e.

(** Truth value of a metrics time field: [None] and [0.0] are false. *)
Definition truthy (t : option Q) : bool :=
  match t with
  | None => false
  | Some x => negb (Qeq_bool x 0)
  end.

Definition len {A : Type} (l : list A) : Z := Z.of_nat (length l).

Definition sum (l : list Q) : Q := fold_left Qplus l (0 # 1).

(** [sum(xs)] on binary64 numbers: the additions are made from left to
    right, starting from the integer 0, each one rounded. *)
Definition fsum (l : list Q) : Q := fold_left Binary64.add l (0 # 1).



(** [min] and [max] keep the first of several equal extremes. *)
Definition min (l : list Q) : result Q :=
  match l with
  | [] => Raise ValueError
  | x :: xs => Ok (fold_left (fun a b => if Qlt_le_dec b a then b else a) xs x)
  end.

Definition max (l : list Q) : result Q :=
  match l with
  | [] => Raise ValueError
  | x :: xs => Ok (fold_left (fun a b => if Qlt_le_dec a b then b else a) xs x)
  end.

(** [sorted] is a stable ascending sort; a stable sort is determined by its
    input, so a stable insertion sort computes the same list. *)
Fixpoint insert (x : Q) (s : list Q) : list Q :=
  match s with
  | [] => [x]
  | y :: s' => if Qle_bool x y then x :: s else y :: insert x s'
  end.

Definition sorted (l : list Q) : list Q := fold_right insert [] l.

(** [xs[i]] for [i >= 0]. *)
Definition index (l : list Q) (i : Z) : result Q :=
  if i <? 0 then Raise IndexError
  else
    match nth_error l (Z.to_nat i) with
    | Some x => Ok x
    | None => Raise IndexError
    end.

(** [str(n)] for an integer. *)
Definition str (n : Z) : string := NilZero.string_of_int (Z.to_int n).

End Py.

(** ** tcp_server.py *)

Module TCPServer.

(** [self.metrics] *)
Record metrics : Type := mkMetrics {
  total_connections : Z;
  total_bytes_received : Z;
  total_messages : Z;
  start_time : option Q;
  end_time : option Q;
  message_timestamps : list Q
}.

(** [__init__] *)
Definition init : metrics := mkMetrics 0 0 0 None None [].

Definition set_total_bytes_received (v : Z) (m : metrics) : metrics :=
  mkMetrics (total_connections m) v (total_messages m)
            (start_time m) (end_time m) (message_timestamps m).

Definition set_total_messages (v : Z) (m : metrics) : metrics :=
  mkMetrics (total_connections m) (total_bytes_received m) v
            (start_time m) (end_time m) (message_timestamps m).

Definition set_total_connections (v : Z) (m : metrics) : metrics :=
  mkMetrics v (total_bytes_received m) (total_messages m)
            (start_time m) (end_time m) (message_timestamps m).

Definition set_start_time (t : Q) (m : metrics) : metrics :=
  mkMetrics (total_connections m) (total_bytes_received m) (total_messages m)
            (Some t) (end_time m) (message_timestamps m).

Definition set_end_time (t : Q) (m : metrics) : metrics :=
  mkMetrics (total_connections m) (total_bytes_received m) (total_messages m)
            (start_time m) (Some t) (message_timestamps m).

Definition append_timestamp (t : Q) (m : metrics) : metrics :=
  mkMetrics (total_connections m) (total_bytes_received m) (total_messages m)
            (start_time m) (end_time m) (message_timestamps m ++ [t]).

(** What a handler writes to the console and to its socket. *)
Inductive output : Type :=
| PrintReceived (prefix : list Z) (nbytes : Z)   (* line 89 *)
| PrintBinary (nbytes : Z)                       (* line 91 *)
| SendAck (ack : string)                         (* line 95 *)
| PrintHandlerError                              (* line 98 *)
| SocketClose                                    (* line 100 *)
| PrintClosed.                                   (* line 101 *)

(** Outcome of [client_socket.recv(4096)]: some bytes (none at all when the
    peer has closed) or an exception. *)
Inductive recv_result : Type :=
| Recv (data : list byte)
| RecvRaises.

(** Outcome of [client_socket.send(...)]. *)
Inductive send_result : Type :=
| Sent
| SendRaises.

(** Outcome of the [print] of line 89, the one console line that carries
    received text: it raises when [sys.stdout] cannot encode the text.  All
    other lines are ASCII, and the console is taken to accept them. *)
Inductive print_result : Type :=
| Printed
| PrintRaises.

(** Lines 86-91.  The decode and the [print] of the text line are in one
    [try] with a bare [except]: when either of them raises, the binary-data
    line is printed.  Neither is used for anything but the console line. *)
Definition received_line (data : list byte) (shown : print_result) : output :=
  match Utf8.decode data with
  | Some message =>
    match shown with
    | Printed => PrintReceived (firstn 50 message) (Py.len data)
    | PrintRaises => PrintBinary (Py.len data)
    end
  | None => PrintBinary (Py.len data)
  end.

(** Line 94: the text [ACK:<n>] and the [n] the handler puts in it. *)
Definition ack_for (n : Z) : string := ("ACK:" ++ Py.str n)%string.

Definition ack_text (m : metrics) : string := ack_for (total_messages m).

(** Lines 79-84, for one received payload. *)
Definition record_receive (data : list byte) (receive_time : Q)
    (m : metrics) : metrics :=
  let m1 := append_timestamp receive_time m in
  let m2 := set_total_bytes_received (total_bytes_received m1 + Py.len data) m1 in
  set_total_messages (total_messages m2 + 1) m2.

(** One pass of the handler loop as the environment sees it: what [recv]
    returns, the clock reading taken after it, what the [print] of the text
    line does, what [send] does. *)
Record turn : Type := mkTurn {
  recv : recv_result;
  now : Q;
  console : print_result;
  sent : send_result
}.

Inductive status : Type :=
| Waiting     (* blocked in [recv], script exhausted *)
| Closed.     (* left the loop, socket closed *)

(** [handle_client] run by itself against a script of turns: the final
    metrics, the outputs in order and whether the handler has ended. *)
Fixpoint handle_client (m : metrics) (script : list turn)
    : metrics * list output * status :=
  match script with
  | [] => (m, [], Waiting)
  | t :: rest =>
    match recv t with
    | RecvRaises => (m, [PrintHandlerError; SocketClose; PrintClosed], Closed)
    | Recv [] => (m, [SocketClose; PrintClosed], Closed)
    | Recv data =>
      let m' := record_receive data (now t) m in
      let line := received_line data (console t) in
      let ack := ack_text m' in
      match sent t with
      | SendRaises =>
        (m', [line; PrintHandlerError; SocketClose; PrintClosed], Closed)
      | Sent =>
        let '(m'', out, st) := handle_client m' rest in
        (m'', line :: SendAck ack :: out, st)
      end
    end
  end.

Definition acks_sent (out : list output) : list string :=
  flat_map (fun o => match o with SendAck a => [a] | _ => [] end) out.

(** *** Handlers as threads

    [start] runs every handler in a thread of its own over the one
    [self.metrics] dictionary, and no lock is taken anywhere.  A thread can
    be preempted between any two operations on the dictionary; in
    particular [d[k] += v] is a read of [d[k]] followed by a store.  The
    program counter of a handler names the next such operation. *)
Inductive pc : Type :=
| AtRecv                                   (* line 73 *)
| AtStamp (data : list byte)               (* lines 79-80, [append] *)
| AtBytesRead (data : list byte)           (* line 83, read *)
| AtBytesWrite (data : list byte) (seen : Z)   (* line 83, store *)
| AtMsgsRead (data : list byte)            (* line 84, read *)
| AtMsgsWrite (data : list byte) (seen : Z)    (* line 84, store *)
| AtPrint (data : list byte)               (* lines 87-91 *)
| AtAck                                    (* line 94 *)
| AtSend (ack : string)                    (* line 95 *)
| AtClose                                  (* lines 97-101 *)
| Finished.

(** What the environment supplies to the operation a thread performs. *)
Inductive input : Type :=
| InRecv (r : recv_result)
| InTime (t : Q)
| InPrint (r : print_result)
| InSend (r : send_result)
| InNone.

(** One operation of one handler on the shared dictionary; [None] when the
    input does not fit the operation the thread is at. *)
Definition step_handler (m : metrics) (p : pc) (i : input)
    : option (metrics * pc * list output) :=
  match p, i with
  | AtRecv, InRecv RecvRaises => Some (m, AtClose, [PrintHandlerError])
  | AtRecv, InRecv (Recv []) => Some (m, AtClose, [])
  | AtRecv, InRecv (Recv data) => Some (m, AtStamp data, [])
  | AtStamp data, InTime t => Some (append_timestamp t m, AtBytesRead data, [])
  | AtBytesRead data, InNone =>
    Some (m, AtBytesWrite data (total_bytes_received m), [])
  | AtBytesWrite data seen, InNone =>
    Some (set_total_bytes_received (seen + Py.len data) m, AtMsgsRead data, [])
  | AtMsgsRead data, InNone => Some (m, AtMsgsWrite data (total_messages m), [])
  | AtMsgsWrite data seen, InNone =>
    Some (set_total_messages (seen + 1) m, AtPrint data, [])
  | AtPrint data, InPrint r => Some (m, AtAck, [received_line data r])
  | AtAck, InNone => Some (m, AtSend (ack_text m), [])
  | AtSend ack, InSend Sent => Some (m, AtRecv, [SendAck ack])
  | AtSend ack, InSend SendRaises => Some (m, AtClose, [PrintHandlerError])
  | AtClose, InNone => Some (m, Finished, [SocketClose; PrintClosed])
  | _, _ => None
  end.

(** The server: the shared metrics, the handler threads in order of
    acceptance, and every output tagged with the thread that made it. *)
Record server : Type := mkServer {
  shared : metrics;
  threads : list pc;
  outputs : list (nat * output)
}.

(** The scheduler's choices: the accept loop takes a connection (lines
    48-57), or handler [tid] performs its next operation. *)
Inductive action : Type :=
| Accept
| Step (tid : nat) (i : input).

Fixpoint set_thread (tid : nat) (p : pc) (ts : list pc) : list pc :=
  match ts, tid with
  | [], _ => []
  | _ :: ts', O => p :: ts'
  | q :: ts', S n => q :: set_thread n p ts'
  end.

Definition step (s : server) (a : action) : option server :=
  match a with
  | Accept =>
    Some (mkServer (set_total_connections (total_connections (shared s) + 1)
                                          (shared s))
                   (threads s ++ [AtRecv]) (outputs s))
  | Step tid i =>
    match nth_error (threads s) tid with
    | None => None
    | Some p =>
      match step_handler (shared s) p i with
      | None => None
      | Some (m, p', out) =>
        Some (mkServer m (set_thread tid p' (threads s))
                       (outputs s ++ map (pair tid) out))
      end
    end
  end.

Fixpoint run (s : server) (sched : list action) : option server :=
  match sched with
  | [] => Some s
  | a :: sched' =>
    match step s a with
    | None => None
    | Some s' => run s' sched'
    end
  end.

(** [start] up to the accept loop: line 43. *)
Definition started (t : Q) : server :=
  mkServer (set_start_time t init) [] [].

(** The operations of one handler for one turn, with nothing in between. *)
Definition turn_actions (tid : nat) (t : turn) : list action :=
  match recv t with
  | RecvRaises => [Step tid (InRecv RecvRaises); Step tid InNone]
  | Recv [] => [Step tid (InRecv (Recv [])); Step tid InNone]
  | Recv data =>
    [Step tid (InRecv (Recv data)); Step tid (InTime (now t));
     Step tid InNone; Step tid InNone; Step tid InNone; Step tid InNone;
     Step tid (InPrint (console t)); Step tid InNone;
     Step tid (InSend (sent t))]
    ++ match sent t with
       | Sent => []
       | SendRaises => [Step tid InNone]
       end
  end.

(** A schedule in which handlers take turns one whole payload at a time. *)
Definition serial (turns : list (nat * turn)) : list action :=
  flat_map (fun tt => turn_actions (fst tt) (snd tt)) turns.

(** The payloads a list of turns delivers (non-empty receives). *)
Definition delivered (turns : list (nat * turn)) : list (list byte * Q) :=
  flat_map (fun tt =>
              match recv (snd tt) with
              | Recv (b :: data) => [(b :: data, now (snd tt))]
              | _ => []
              end) turns.

(** Payloads received and timestamps appended in an arbitrary schedule. *)
Definition received (sched : list action) : list (list byte) :=
  flat_map (fun a =>
              match a with
              | Step _ (InRecv (Recv (b :: data))) => [b :: data]
              | _ => []
              end) sched.

Definition stamps (sched : list action) : list Q :=
  flat_map (fun a => match a with Step _ (InTime t) => [t] | _ => [] end) sched.

(** Connections accepted in a schedule. *)
Definition accepts (sched : list action) : list unit :=
  flat_map (fun a => match a with Accept => [tt] | _ => [] end) sched.

(** No handler is in the middle of a payload. *)
Definition quiescent (s : server) : Prop :=
  Forall (fun p => p = AtRecv \/ p = Finished) (threads s).

Definition total_len (payloads : list (list byte)) : Z :=
  fold_right (fun d acc => Py.len d + acc) 0 payloads.

(** Per-connection numbering: the acknowledgments of a connection handled
    from metrics [m] are [ACK:1], [ACK:2], ... *)
Definition numbered_from_one (m : metrics) (script : list turn) : Prop :=
  let '(_, out, _) := handle_client m script in
  acks_sent out
  = map (fun k => ack_for (Z.of_nat k)) (seq 1 (length (acks_sent out))).

(** Atomic updates: once the handlers are between payloads, every payload
    received under the schedule has been counted, with its bytes and its
    timestamp. *)
Definition updates_atomic (s0 : server) (sched : list action) : Prop :=
  forall s, run s0 sched = Some s -> quiescent s ->
    total_messages (shared s)
    = total_messages (shared s0) + Py.len (received sched) /\
    total_bytes_received (shared s)
    = total_bytes_received (shared s0) + total_len (received sched) /\
    message_timestamps (shared s)
    = message_timestamps (shared s0) ++ stamps sched.

(** Two connections, one payload each, the two handlers preempted between
    the read and the store of line 84. *)
Definition race : list action :=
  [Accept; Accept;
   Step 0 (InRecv (Recv [x61])); Step 1 (InRecv (Recv [x62]));
   Step 0 (InTime 101%Q); Step 1 (InTime 102%Q);
   Step 0 InNone; Step 0 InNone;          (* line 83, first handler *)
   Step 1 InNone; Step 1 InNone;          (* line 83, second handler *)
   Step 0 InNone;                         (* line 84: first reads 0 *)
   Step 1 InNone;                         (* line 84: second reads 0 *)
   Step 0 InNone;                         (* line 84: first stores 1 *)
   Step 1 InNone;                         (* line 84: second stores 1 *)
   Step 0 (InPrint Printed); Step 0 InNone; Step 0 (InSend Sent);
   Step 1 (InPrint Printed); Step 1 InNone; Step 1 (InSend Sent)].

(** *** Notions used to state further properties *)

(** [recv(4096)] returns at most 4096 bytes. *)
Definition recv_bounded (script : list turn) : Prop :=
  Forall (fun t => match recv t with
                   | Recv data => Py.len data <= 4096
                   | RecvRaises => True
                   end) script.

(** A handler that has received a payload and not yet stored the
    incremented [total_messages]; the bytes of a payload received and not
    yet stored into [total_bytes_received]. *)
Definition uncounted (p : pc) : Z :=
  match p with
  | AtStamp _ | AtBytesRead _ | AtBytesWrite _ _
  | AtMsgsRead _ | AtMsgsWrite _ _ => 1
  | _ => 0
  end.

Definition unbilled (p : pc) : Z :=
  match p with
  | AtStamp data | AtBytesRead data | AtBytesWrite data _ => Py.len data
  | _ => 0
  end.

Definition pending_messages (ts : list pc) : Z :=
  fold_right (fun p acc => uncounted p + acc) 0 ts.

Definition pending_bytes (ts : list pc) : Z :=
  fold_right (fun p acc => unbilled p + acc) 0 ts.

(** The counters, together with what is pending, stay within the bounds
    [T] and [B]; so does every value a handler has read and is about to
    store back. *)
Definition within (K KB T B : Z) (p : pc) : Prop :=
  match p with
  | AtMsgsWrite _ seen => seen + K <= T
  | AtBytesWrite _ seen => seen + KB <= B
  | _ => True
  end.

Definition never_ahead (T B : Z) (s : server) : Prop :=
  total_messages (shared s) + pending_messages (threads s) <= T /\
  total_bytes_received (shared s) + pending_bytes (threads s) <= B /\
  Forall (within (pending_messages (threads s)) (pending_bytes (threads s))
                 T B) (threads s).

(** *** Final report *)

Record rates : Type := mkRates {
  msg_per_sec : Q;
  throughput : Q;          (* Mbps *)
  avg_message_size : Q
}.

Record report : Type := mkReport {
  duration : option Q;
  connections : Z;
  messages : Z;
  bytes : Z;
  throughput_lines : option rates
}.

(** [display_metrics], lines 113-136, up to the call of [save_metrics]. *)
Definition display_metrics (m : metrics) : Py.result report :=
  let d :=
    match start_time m, end_time m with
    | Some s, Some e =>
      if Py.truthy (start_time m) && Py.truthy (end_time m)
      then Some (e - s)%Q else None
    | _, _ => None
    end in
  let finish r :=
    Py.Ok (mkReport d (total_connections m) (total_messages m)
                    (total_bytes_received m) r) in
  if (0 <? total_messages m) && Py.truthy (start_time m) then
    match start_time m, end_time m with
    | Some s, Some e =>
      let duration := (e - s)%Q in
      if Qlt_le_dec 0 duration then
        finish (Some (mkRates
          (inject_Z (total_messages m) / duration)%Q
          (inject_Z (total_bytes_received m * 8) / duration / 1000000)%Q
          (inject_Z (total_bytes_received m) / inject_Z (total_messages m))%Q))
      else finish None
    | _, _ => Py.Raise Py.TypeError
    end
  else finish None.

(** [cleanup], lines 103-111. *)
Definition cleanup (t : Q) (m : metrics) : Py.result report :=
  display_metrics (set_end_time t m).

End TCPServer.

(** ** tcp_client.py *)

Module TCPClient.

(** [self.metrics] *)
Record metrics : Type := mkMetrics {
  total_messages_sent : Z;
  total_bytes_sent : Z;
  latencies : list Q;
  send_times : list Q;
  start_time : option Q;
  end_time : option Q;
  failed_messages : Z
}.

(** [__init__] *)
Definition init : metrics := mkMetrics 0 0 [] [] None None 0.

(** The argument of [send_message]: a [str] or [bytes]. *)
Inductive message : Type :=
| Str (s : list Z)
| Bytes (b : list byte).

(** What the socket does with one send-and-wait cycle (lines 57-60):
    [send] raises, [send] returns and [recv] raises, or [recv] returns. *)
Inductive sock_outcome : Type :=
| SendRaises
| RecvRaises
| RecvReturns (ack : list byte).

(** The environment of a run: the successive readings of [time.time()] and
    the outcome of each successive socket cycle. *)
Record world : Type := mkWorld {
  clock : nat -> Q;
  sock : nat -> sock_outcome
}.

Inductive event : Type :=
| Cycle (payload : list byte) (o : sock_outcome)   (* lines 57-60 *)
| PrintSendFailed                                  (* line 75 *)
| PrintBulkStart (n size : Z)                      (* lines 81-82 *)
| PrintProgress (i n : Z) (latency : Q)            (* lines 95-96 *)
| PrintFailed (i : Z)                              (* line 98 *)
| PrintBulkComplete                                (* line 102 *)
| PrintLoadStart (d : Q) (r size : Z)              (* lines 106-108 *)
| PrintLoad (count : Z) (elapsed latency : Q)      (* lines 129-130 *)
| Sleep (d : Q)                                    (* line 135, [main] *)
| PrintLoadComplete.                               (* line 139 *)

(** The client and what it has consumed of its environment: [ticks] clock
    readings and [calls] socket cycles, one per call of [send_message]. *)
Record client : Type := mkClient {
  data : metrics;
  ticks : nat;
  calls : nat;
  events : list event
}.

Definition fresh : client := mkClient init 0 0 [].

(** State passing. *)
Definition M (A : Type) : Type := client -> A * client.

Definition ret {A : Type} (a : A) : M A := fun c => (a, c).

Definition bind {A B : Type} (x : M A) (f : A -> M B) : M B :=
  fun c => let '(a, c') := x c in f a c'.

Notation "x <- c1 ;; c2" := (bind c1 (fun x => c2))
  (at level 61, c1 at next level, right associativity).
Notation "c1 ;; c2" := (bind c1 (fun _ => c2))
  (at level 61, right associativity).

Definition time_time (w : world) : M Q :=
  fun c => (clock w (ticks c),
            mkClient (data c) (S (ticks c)) (calls c) (events c)).

Definition emit (e : event) : M unit :=
  fun c => (tt, mkClient (data c) (ticks c) (calls c) (events c ++ [e])).

Definition update (f : metrics -> metrics) : M unit :=
  fun c => (tt, mkClient (f (data c)) (ticks c) (calls c) (events c)).

Definition next_cycle (w : world) : M sock_outcome :=
  fun c => (sock w (calls c),
            mkClient (data c) (ticks c) (S (calls c)) (events c)).

Definition when (b : bool) (x : M unit) : M unit := if b then x else ret tt.

(** Lines 67-70. *)
Definition record_success (nbytes : Z) (latency send_start : Q)
    (m : metrics) : metrics :=
  mkMetrics (total_messages_sent m + 1) (total_bytes_sent m + nbytes)
            (latencies m ++ [latency]) (send_times m ++ [send_start])
            (start_time m) (end_time m) (failed_messages m).

(** Line 76. *)
Definition record_failure (m : metrics) : metrics :=
  mkMetrics (total_messages_sent m) (total_bytes_sent m)
            (latencies m) (send_times m)
            (start_time m) (end_time m) (failed_messages m + 1).

Definition set_start_time (t : Q) (m : metrics) : metrics :=
  mkMetrics (total_messages_sent m) (total_bytes_sent m)
            (latencies m) (send_times m)
            (Some t) (end_time m) (failed_messages m).

Definition set_end_time (t : Q) (m : metrics) : metrics :=
  mkMetrics (total_messages_sent m) (total_bytes_sent m)
            (latencies m) (send_times m)
            (start_time m) (Some t) (failed_messages m).

(** Lines 74-77. *)
Definition send_failed : M (bool * Q) :=
  emit PrintSendFailed ;;
  update record_failure ;;
  ret (false, 0%Q).

(** Lines 52-55; [None] when [encode] raises. *)
Definition message_bytes (msg : message) : option (list byte) :=
  match msg with
  | Str s => Utf8.encode s
  | Bytes b => Some b
  end.

(** [send_message], lines 45-77. *)
Definition send_message (w : world) (msg : message) : M (bool * Q) :=
  send_start <- time_time w ;;
  o <- next_cycle w ;;
  match message_bytes msg with
  | None => send_failed
  | Some message_bytes =>
    emit (Cycle message_bytes o) ;;
    match o with
    | SendRaises => send_failed
    | RecvRaises => send_failed
    | RecvReturns ack =>
      send_end <- time_time w ;;
      let latency := (send_end - send_start)%Q in
      update (record_success (Py.len message_bytes) latency send_start) ;;
      ret (true, latency)
    end
  end.

(** The [for] loop of [send_bulk_messages], lines 90-98: [k] iterations
    remain and the next index is [i]. *)
Fixpoint bulk_loop (w : world) (test_message : message) (num_messages : Z)
    (i : Z) (k : nat) : M unit :=
  match k with
  | O => ret tt
  | S k' =>
    r <- send_message w test_message ;;
    (if fst r
     then when ((i + 1) mod 10 =? 0)
               (emit (PrintProgress (i + 1) num_messages (snd r)))
     else emit (PrintFailed (i + 1))) ;;
    bulk_loop w test_message num_messages (i + 1) k'
  end.

(** ["X" * message_size] *)
Definition repeated (c : Z) (message_size : Z) : message :=
  Str (repeat c (Z.to_nat message_size)).

(** [send_bulk_messages], lines 79-102. *)
Definition send_bulk_messages (w : world) (num_messages message_size : Z)
    : M unit :=
  emit (PrintBulkStart num_messages message_size) ;;
  t <- time_time w ;;
  update (set_start_time t) ;;
  let test_message := repeated 88 message_size in
  bulk_loop w test_message num_messages 0 (Z.to_nat num_messages) ;;
  t' <- time_time w ;;
  update (set_end_time t') ;;
  emit PrintBulkComplete.

(** One pass of the [while] body of [send_variable_load], lines 122-135;
    [started] is the value stored in [metrics['start_time']] at line 110,
    which nothing overwrites during the loop. *)
Definition load_pass (w : world) (test_message : message)
    (messages_per_second : Z) (delay started : Q) (message_count : Z)
    : M unit :=
  send_start <- time_time w ;;
  r <- send_message w test_message ;;
  (if fst r && ((message_count + 1) mod messages_per_second =? 0)
   then t <- time_time w ;;
        emit (PrintLoad (message_count + 1) (t - started)%Q (snd r))
   else ret tt) ;;
  t <- time_time w ;;
  let elapsed := (t - send_start)%Q in
  if Qlt_le_dec elapsed delay
  then emit (Sleep (delay - elapsed)%Q)
  else ret tt.

(** The [while] loop, lines 121-135, for at most [fuel] tests of its
    condition; the result tells whether the condition was found false. *)
Fixpoint load_loop (fuel : nat) (w : world) (test_message : message)
    (messages_per_second : Z) (delay started end_time : Q)
    (message_count : Z) : M bool :=
  match fuel with
  | O => ret false
  | S fuel' =>
    t <- time_time w ;;
    if Qlt_le_dec t end_time then
      load_pass w test_message messages_per_second delay started
                message_count ;;
      load_loop fuel' w test_message messages_per_second delay started
                end_time (message_count + 1)
    else ret true
  end.

Inductive outcome : Type :=
| Completed
| Running                    (* fuel exhausted inside the loop *)
| Raised (e : Py.exn).

(** [send_variable_load], lines 104-139. *)
Definition send_variable_load (fuel : nat) (w : world)
    (duration_seconds : Q) (messages_per_second message_size : Z)
    : M outcome :=
  emit (PrintLoadStart duration_seconds messages_per_second message_size) ;;
  started <- time_time w ;;
  update (set_start_time started) ;;
  let test_message := repeated 89 message_size in
  if messages_per_second =? 0 then ret (Raised Py.ZeroDivisionError)
  else
    let delay := (1 / inject_Z messages_per_second)%Q in
    t <- time_time w ;;
    let end_time := (t + duration_seconds)%Q in
    done <- load_loop fuel w test_message messages_per_second delay started
                      end_time 0 ;;
    if done then
      t' <- time_time w ;;
      update (set_end_time t') ;;
      emit PrintLoadComplete ;;
      ret Completed
    else ret Running.

(** The two tests of [main], lines 221-228. *)
Definition main_tests (fuel : nat) (w : world) : M outcome :=
  send_bulk_messages w 100 1024 ;;
  emit (Sleep 1%Q) ;;
  send_variable_load fuel w 10%Q 10 512.

(** A world for examples: the clock advances one second per reading; of
    every seven socket cycles the fourth fails in [send] and the sixth in
    [recv]. *)
Definition sample_world : world :=
  mkWorld (fun k => inject_Z (Z.of_nat k))
          (fun k => if Nat.eqb (k mod 7) 3 then SendRaises
                    else if Nat.eqb (k mod 7) 5 then RecvRaises
                    else RecvReturns [x41; x43; x4b; x3a; x31]).

(** *** What a run leaves behind *)

(** The payloads of the cycles in which [send] and [recv] both returned,
    whatever [recv] returned. *)
Definition completed_payloads (evs : list event) : list (list byte) :=
  flat_map (fun e =>
              match e with
              | Cycle payload (RecvReturns _) => [payload]
              | _ => []
              end) evs.

Definition total_len (payloads : list (list byte)) : Z :=
  fold_right (fun d acc => Py.len d + acc) 0 payloads.

(** The durations handed to [time.sleep]. *)
Definition sleeps (evs : list event) : list Q :=
  flat_map (fun e => match e with Sleep d => [d] | _ => [] end) evs.

(** A reply that acknowledges has at least one byte: [recv] returns no byte
    at all once the peer has closed the connection (the condition the
    server's handler tests at its line 75). *)
Definition acknowledged (o : sock_outcome) : bool :=
  match o with
  | RecvReturns (_ :: _) => true
  | _ => false
  end.

Definition acknowledged_payloads (evs : list event) : list (list byte) :=
  flat_map (fun e =>
              match e with
              | Cycle payload o => if acknowledged o then [payload] else []
              | _ => []
              end) evs.

(** A peer that has closed the connection: every [send] returns and every
    [recv] returns no byte.  The clock advances one second per reading. *)
Definition closed_peer : world :=
  mkWorld (fun k => inject_Z (Z.of_nat k)) (fun _ => RecvReturns []).

(** The counters agree with what happened on the socket. *)
Definition consistent (c : client) : Prop :=
  Py.len (latencies (data c)) = total_messages_sent (data c) /\
  total_messages_sent (data c) = Py.len (completed_payloads (events c)) /\
  failed_messages (data c) + total_messages_sent (data c)
  = Z.of_nat (calls c) /\
  total_bytes_sent (data c) = total_len (completed_payloads (events c)).

(** Steps that keep the counters in agreement with the socket. *)
Definition preserves {A : Type} (x : M A) : Prop :=
  forall c, consistent c -> consistent (snd (x c)).

(** *** Environments and invariants used to state further properties *)

(** A predicate on the client kept by a computation. *)
Definition keeps {A : Type} (P : client -> Prop) (x : M A) : Prop :=
  forall c, P c -> P (snd (x c)).

(** Events that are console lines. *)
Definition is_print (e : event) : bool :=
  match e with
  | Cycle _ _ => false
  | Sleep _ => false
  | _ => true
  end.

(** The clock never goes back. *)
Definition monotone_clock (w : world) : Prop :=
  forall k, (clock w k <= clock w (S k))%Q.

(** Every socket cycle gets a reply; every socket cycle raises. *)
Definition all_return (w : world) : Prop :=
  forall k, exists ack, sock w k = RecvReturns ack.


(** The same world with every reply replaced by the empty one, which is
    what [recv] returns once the peer has closed the connection. *)
Definition blank_reply (o : sock_outcome) : sock_outcome :=
  match o with
  | RecvReturns _ => RecvReturns []
  | _ => o
  end.

Definition blank_replies (w : world) : world :=
  mkWorld (clock w) (fun k => blank_reply (sock w k)).

Definition blank_event (e : event) : event :=
  match e with
  | Cycle payload o => Cycle payload (blank_reply o)
  | _ => e
  end.

(** Two clients that differ at most in the replies they have seen. *)
Definition same_but_replies (c1 c2 : client) : Prop :=
  data c1 = data c2 /\ ticks c1 = ticks c2 /\ calls c1 = calls c2 /\
  map blank_event (events c1) = map blank_event (events c2).

Definition agree {A : Type} (x y : M A) : Prop :=
  forall c1 c2, same_but_replies c1 c2 ->
    fst (x c1) = fst (y c2) /\ same_but_replies (snd (x c1)) (snd (y c2)).

(** The samples recorded so far are timed by a clock that does not go
    back: the latencies are not negative and the send times ascend, up to
    the next reading. *)
Definition well_timed (w : world) (c : client) : Prop :=
  Py.len (send_times (data c)) = Py.len (latencies (data c)) /\
  Forall (fun l => (0 <= l)%Q) (latencies (data c)) /\
  StronglySorted Qle (send_times (data c)) /\
  Forall (fun t => (t <= clock w (ticks c))%Q) (send_times (data c)).

(** [c'] has everything [c] had recorded, and possibly more. *)
Definition extends (c c' : client) : Prop :=
  exists more,
    latencies (data c') = latencies (data c) ++ more /\
    total_messages_sent (data c')
    = total_messages_sent (data c) + Py.len more /\
    failed_messages (data c) <= failed_messages (data c').

(** The latencies recorded since the reading [s0] fit between [s0] and the
    next reading of the clock. *)
Definition fits_since (w : world) (s0 : Q) (c : client) : Prop :=
  (Py.sum (latencies (data c)) <= clock w (ticks c) - s0)%Q.

(** *** Final report *)

Record latency_stats : Type := mkLatency {
  avg_latency : Q;
  min_latency : Q;
  max_latency : Q;
  p50 : Q;
  p95 : Q;
  p99 : Q
}.

Record rates : Type := mkRates {
  msg_per_sec : Q;
  throughput : Q;          (* Mbps *)
  avg_message_size : Q
}.

Record report : Type := mkReport {
  duration : option Q;
  messages : Z;
  bytes : Z;
  failed : Z;
  latency_lines : option latency_stats;
  throughput_lines : option rates
}.

Definition try {A B : Type} (x : Py.result A) (f : A -> Py.result B)
    : Py.result B :=
  match x with
  | Py.Ok a => f a
  | Py.Raise e => Py.Raise e
  end.

(** Line 162: [l * 1000]. *)
Definition to_ms (l : Q) : Q := Binary64.mul l 1000.

(** Lines 161-180. *)
Definition latency_statistics (latencies : list Q)
    : Py.result (option latency_stats) :=
  if 0 <? Py.len latencies then
    let latencies_ms := map to_ms latencies in
    let avg_latency :=
      Binary64.div (Py.fsum latencies_ms)
                   (Binary64.of_int (Py.len latencies_ms)) in
    try (Py.min latencies_ms) (fun min_latency =>
    try (Py.max latencies_ms) (fun max_latency =>
    let sorted_latencies := Py.sorted latencies_ms in
    try (Py.index sorted_latencies (Py.len sorted_latencies / 2)) (fun p50 =>
    try (Py.index sorted_latencies
           (Binary64.int_mul (Py.len sorted_latencies) Binary64.m0_95))
        (fun p95 =>
    try (Py.index sorted_latencies
           (Binary64.int_mul (Py.len sorted_latencies) Binary64.m0_99))
        (fun p99 =>
    Py.Ok (Some (mkLatency avg_latency min_latency max_latency
                           p50 p95 p99)))))))
  else Py.Ok None.

(** Lines 182-191. *)
Definition throughput_statistics (m : metrics) : Py.result (option rates) :=
  if (0 <? total_messages_sent m) && Py.truthy (start_time m) then
    match start_time m, end_time m with
    | Some s, Some e =>
      let duration := (e - s)%Q in
      if Qlt_le_dec 0 duration then
        Py.Ok (Some (mkRates
          (inject_Z (total_messages_sent m) / duration)%Q
          (inject_Z (total_bytes_sent m * 8) / duration / 1000000)%Q
          (inject_Z (total_bytes_sent m)
           / inject_Z (total_messages_sent m))%Q))
      else Py.Ok None
    | _, _ => Py.Raise Py.TypeError
    end
  else Py.Ok None.

(** [display_metrics], lines 147-193, up to the call of [save_metrics]. *)
Definition display_metrics (m : metrics) : Py.result report :=
  let d :=
    match start_time m, end_time m with
    | Some s, Some e =>
      if Py.truthy (start_time m) && Py.truthy (end_time m)
      then Some (e - s)%Q else None
    | _, _ => None
    end in
  try (latency_statistics (latencies m)) (fun lat =>
  try (throughput_statistics m) (fun thr =>
  Py.Ok (mkReport d (total_messages_sent m) (total_bytes_sent m)
                  (failed_messages m) lat thr))).

End TCPClient.

(* ================================================================== *)
(** * Part II: properties *)
(* ================================================================== *)

(** ** The percentile indices *)

Section Binary64Facts.
Import Binary64.

Lemma round53_exact N : N < 2 ^ 53 -> round53 N = N.
Proof.
  intros HN. unfold round53.
  destruct (Z.leb_spec (Z.log2 N - 52) 0) as [_|Hs]; [reflexivity|].
  exfalso.
  assert (0 < N).
  { destruct (Z.lt_ge_cases 0 N); [assumption|].
    rewrite Z.log2_nonpos in Hs; lia. }
  pose proof (Z.log2_lt_pow2 N 53 ltac:(lia)) as [H1 _].
  specialize (H1 HN). lia.
Qed.

(** Above [2^53] the rounded value is a multiple of the unit [E] of its
    binade and lies within half a unit of the exact value. *)
Lemma round53_spec N :
  2 ^ 53 <= N ->
  exists E v,
    E = 2 ^ (Z.log2 N - 52) /\ round53 N = E * v /\
    2 <= E /\ E * 2 ^ 52 <= N < E * 2 ^ 53 /\
    2 * N - E <= 2 * (E * v) <= 2 * N + E.
Proof.
  intros HN.
  assert (Hpos : 0 < N) by lia.
  pose proof (Z.log2_spec N Hpos) as [Hlo Hhi].
  assert (Hl : 53 <= Z.log2 N) by (apply Z.log2_le_pow2; lia).
  set (s := Z.log2 N - 52) in *.
  assert (Hs : 1 <= s) by lia.
  assert (HE : 2 ^ s = 2 * 2 ^ (s - 1)).
  { replace s with (Z.succ (s - 1)) at 1 by lia. apply Z.pow_succ_r. lia. }
  assert (Hh : 0 < 2 ^ (s - 1)) by (apply Z.pow_pos_nonneg; lia).
  assert (Hlo' : 2 ^ s * 2 ^ 52 <= N).
  { rewrite <- Z.pow_add_r by lia.
    replace (s + 52) with (Z.log2 N) by lia. exact Hlo. }
  assert (Hhi' : N < 2 ^ s * 2 ^ 53).
  { rewrite <- Z.pow_add_r by lia.
    replace (s + 53) with (Z.succ (Z.log2 N)) by lia. exact Hhi. }
  pose proof (Z.div_mod N (2 ^ s) ltac:(lia)) as Hdm.
  pose proof (Z.mod_pos_bound N (2 ^ s) ltac:(lia)) as Hr.
  unfold round53. fold s.
  destruct (Z.leb_spec s 0) as [?|_]; [lia|].
  exists (2 ^ s).
  destruct ((2 ^ (s - 1) <? N mod 2 ^ s)
            || ((N mod 2 ^ s =? 2 ^ (s - 1)) && Z.odd (N / 2 ^ s))) eqn:Hup.
  - exists (N / 2 ^ s + 1).
    assert (2 ^ (s - 1) <= N mod 2 ^ s).
    { apply orb_true_iff in Hup as [H|H].
      - apply Z.ltb_lt in H. lia.
      - apply andb_true_iff in H as [H _]. apply Z.eqb_eq in H. lia. }
    repeat split; try lia.
  - exists (N / 2 ^ s).
    apply orb_false_iff in Hup as [H _]. apply Z.ltb_ge in H.
    repeat split; try lia.
Qed.

(** A literal [c = m * 2^-53] that sits [8 / D] units of [2^-53] below the
    fraction [P / D]: the rounded product [n * c] truncates to
    [floor (P * n / D)], for every length below [2^46]. *)
Lemma int_mul_ratio (D P m n : Z) :
  D * m = P * 2 ^ 53 - 8 -> 16 < P < D -> D <= 100 ->
  2 ^ 52 <= m < 2 ^ 53 -> 0 <= n < 2 ^ 46 ->
  int_mul n m = P * n / D.
Proof.
  intros Hm HP HD Hmr Hn. unfold int_mul.
  assert (Hcases : n = 0 \/ n = 1 \/ 2 <= n) by lia.
  destruct Hcases as [->|[->|Hn2]].
  - rewrite Z.mul_0_r. reflexivity.
  - rewrite Z.mul_1_l, Z.mul_1_r, round53_exact by lia.
    rewrite !Z.div_small by lia. reflexivity.
  - set (N := n * m).
    assert (HN : 2 ^ 53 <= N) by (unfold N; nia).
    destruct (round53_spec N HN)
      as (E & v & HE & -> & HE2 & [HElo HEhi] & [Hvlo Hvhi]).
    set (s := Z.log2 N - 52) in *.
    assert (HEn : E < 2 * n) by (unfold N in *; nia).
    assert (Hs : 0 <= s < 47).
    { split.
      - destruct (Z.lt_ge_cases s 0) as [Hneg|]; [|assumption].
        rewrite (Z.pow_neg_r 2 s Hneg) in HE. lia.
      - apply (Z.pow_lt_mono_r_iff 2); [lia|lia|]. rewrite <- HE. lia. }
    set (F := 2 ^ (53 - s)).
    assert (HF : 2 ^ 53 = E * F).
    { unfold F. rewrite HE, <- Z.pow_add_r by lia. f_equal. lia. }
    pose proof (Z.div_mod (P * n) D ltac:(lia)) as Hdm.
    pose proof (Z.mod_pos_bound (P * n) D ltac:(lia)) as Hc.
    set (k := P * n / D) in *. set (c := (P * n) mod D) in *.
    assert (HDN : D * N = (D * k + c) * 2 ^ 53 - 8 * n) by (unfold N; nia).
    assert (Hk : 0 <= k) by (apply Z.div_pos; nia).
    symmetry. apply (Z.div_unique_pos _ _ k (E * v - 2 ^ 53 * k)); [|lia].
    split.
    + assert (Hcc : c = 0 \/ 1 <= c) by lia. destruct Hcc as [Hc0|Hc1].
      * assert (HDE : 16 * n < D * E) by nia.
        assert (Hj : - E < E * v - 2 ^ 53 * k) by nia.
        rewrite HF in Hj |- *.
        assert (0 <= v - F * k) by nia. nia.
      * nia.
    + nia.
Qed.

Lemma int_mul_95 n : 0 <= n < 2 ^ 46 -> int_mul n m0_95 = 95 * n / 100.
Proof.
  intros Hn. rewrite (int_mul_ratio 20 19) by (unfold m0_95; lia).
  replace (95 * n) with (19 * n * 5) by lia.
  replace 100 with (20 * 5) by lia.
  rewrite Z.div_mul_cancel_r by lia. reflexivity.
Qed.

Lemma int_mul_99 n : 0 <= n < 2 ^ 46 -> int_mul n m0_99 = 99 * n / 100.
Proof.
  intros Hn. apply (int_mul_ratio 100 99); unfold m0_99; lia.
Qed.

End Binary64Facts.

(** ** The built-ins *)

Section PyFacts.

Lemma Qle_bool_false x y : Qle_bool x y = false -> (y <= x)%Q.
Proof.
  intros H. apply Qlt_le_weak, Qnot_le_lt. intros Hle.
  apply Qle_bool_iff in Hle. congruence.
Qed.

Lemma insert_Permutation x s : Permutation (Py.insert x s) (x :: s).
Proof.
  induction s as [|y s IH]; simpl.
  - reflexivity.
  - destruct (Qle_bool x y).
    + reflexivity.
    + rewrite IH. apply perm_swap.
Qed.

Lemma sorted_Permutation l : Permutation (Py.sorted l) l.
Proof.
  induction l as [|x l IH]; simpl.
  - constructor.
  - rewrite insert_Permutation. now constructor.
Qed.

Lemma sorted_length l : length (Py.sorted l) = length l.
Proof. apply Permutation_length, sorted_Permutation. Qed.

Lemma insert_StronglySorted x s :
  StronglySorted Qle s -> StronglySorted Qle (Py.insert x s).
Proof.
  induction 1 as [|y s Hs IH Hy]; simpl.
  - repeat constructor.
  - destruct (Qle_bool x y) eqn:E.
    + apply Qle_bool_iff in E. constructor.
      * now constructor.
      * constructor; [assumption|].
        eapply Forall_impl; [|exact Hy]. intros z Hz. now apply Qle_trans with y.
    + apply Qle_bool_false in E. constructor; [assumption|].
      eapply Permutation_Forall.
      * symmetry. apply insert_Permutation.
      * now constructor.
Qed.

Lemma sorted_StronglySorted l : StronglySorted Qle (Py.sorted l).
Proof.
  induction l as [|x l IH]; simpl.
  - constructor.
  - now apply insert_StronglySorted.
Qed.

Lemma sorted_Sorted l : Sorted Qle (Py.sorted l).
Proof. apply StronglySorted_Sorted, sorted_StronglySorted. Qed.

Lemma StronglySorted_nth_error s :
  StronglySorted Qle s ->
  forall i j a b, (i <= j)%nat ->
    nth_error s i = Some a -> nth_error s j = Some b -> (a <= b)%Q.
Proof.
  induction 1 as [|y s Hs IH Hy]; intros i j a b Hij Ha Hb.
  - destruct i; discriminate.
  - destruct i as [|i], j as [|j]; simpl in *.
    + injection Ha as <-. injection Hb as <-. apply Qle_refl.
    + injection Ha as <-. apply nth_error_In in Hb.
      rewrite Forall_forall in Hy. now apply Hy.
    + lia.
    + apply (IH i j); [lia|assumption|assumption].
Qed.

Lemma index_in_range l i :
  0 <= i < Py.len l -> exists x, Py.index l i = Py.Ok x /\
                                 nth_error l (Z.to_nat i) = Some x.
Proof.
  intros [H0 H1]. unfold Py.index, Py.len in *.
  destruct (Z.ltb_spec i 0) as [?|_]; [lia|].
  destruct (nth_error l (Z.to_nat i)) as [x|] eqn:E.
  - now exists x.
  - apply nth_error_None in E. lia.
Qed.

Lemma fold_min_spec xs : forall a,
  let r := fold_left (fun a b => if Qlt_le_dec b a then b else a) xs a in
  (r <= a)%Q /\ Forall (fun x => (r <= x)%Q) xs.
Proof.
  induction xs as [|x xs IH]; intros a; simpl.
  - split; [apply Qle_refl|constructor].
  - destruct (Qlt_le_dec x a) as [Hlt|Hle].
    + destruct (IH x) as [H1 H2]. split; [lra|]. now constructor.
    + destruct (IH a) as [H1 H2]. split; [assumption|].
      constructor; [lra|assumption].
Qed.

Lemma fold_max_spec xs : forall a,
  let r := fold_left (fun a b => if Qlt_le_dec a b then b else a) xs a in
  (a <= r)%Q /\ Forall (fun x => (x <= r)%Q) xs.
Proof.
  induction xs as [|x xs IH]; intros a; simpl.
  - split; [apply Qle_refl|constructor].
  - destruct (Qlt_le_dec a x) as [Hlt|Hle].
    + destruct (IH x) as [H1 H2]. split; [lra|]. now constructor.
    + destruct (IH a) as [H1 H2]. split; [assumption|].
      constructor; [lra|assumption].
Qed.

Lemma min_spec l :
  l <> [] -> exists a, Py.min l = Py.Ok a /\ Forall (fun x => (a <= x)%Q) l.
Proof.
  destruct l as [|x xs]; [congruence|]. intros _. simpl.
  eexists. split; [reflexivity|].
  destruct (fold_min_spec xs x) as [H1 H2]. now constructor.
Qed.

Lemma max_spec l :
  l <> [] -> exists a, Py.max l = Py.Ok a /\ Forall (fun x => (x <= a)%Q) l.
Proof.
  destruct l as [|x xs]; [congruence|]. intros _. simpl.
  eexists. split; [reflexivity|].
  destruct (fold_max_spec xs x) as [H1 H2]. now constructor.
Qed.

Lemma fold_sum_lower lo l : Forall (fun x => (lo <= x)%Q) l ->
  forall a, (a + inject_Z (Py.len l) * lo <= fold_left Qplus l a)%Q.
Proof.
  unfold Py.len.
  induction 1 as [|x l Hx Hl IH]; intros a.
  - simpl. change (inject_Z 0) with 0%Q. lra.
  - cbn [fold_left length]. specialize (IH (a + x)%Q).
    rewrite Nat2Z.inj_succ. unfold Z.succ. rewrite inject_Z_plus.
    change (inject_Z 1) with 1%Q. lra.
Qed.

Lemma fold_sum_upper hi l : Forall (fun x => (x <= hi)%Q) l ->
  forall a, (fold_left Qplus l a <= a + inject_Z (Py.len l) * hi)%Q.
Proof.
  unfold Py.len.
  induction 1 as [|x l Hx Hl IH]; intros a.
  - simpl. change (inject_Z 0) with 0%Q. lra.
  - cbn [fold_left length]. specialize (IH (a + x)%Q).
    rewrite Nat2Z.inj_succ. unfold Z.succ. rewrite inject_Z_plus.
    change (inject_Z 1) with 1%Q. lra.
Qed.

(** The mean of a non-empty list lies between any two bounds of its
    elements. *)
Lemma mean_between lo hi l :
  l <> [] ->
  Forall (fun x => (lo <= x)%Q) l -> Forall (fun x => (x <= hi)%Q) l ->
  (lo <= Py.sum l / inject_Z (Py.len l) <= hi)%Q.
Proof.
  intros Hne Hlo Hhi.
  assert (Hn : (0 < inject_Z (Py.len l))%Q).
  { unfold Py.len. destruct l; [congruence|].
    change 0%Q with (inject_Z 0). rewrite <- Zlt_Qlt. simpl. lia. }
  pose proof (fold_sum_lower lo l Hlo 0%Q) as H1.
  pose proof (fold_sum_upper hi l Hhi 0%Q) as H2.
  fold (Py.sum l) in H1, H2. split.
  - apply Qle_shift_div_l; [assumption|]. lra.
  - apply Qle_shift_div_r; [assumption|]. lra.
Qed.

Lemma Qfloor_percent (n p : Z) :
  Qfloor (inject_Z n * (p # 100)) = p * n / 100.
Proof.
  unfold Qfloor, inject_Z, Qmult. cbn [Qnum Qden].
  rewrite Z.mul_comm. reflexivity.
Qed.

End PyFacts.

(** ** The server *)

Section ServerFacts.
Import TCPServer.

Lemma record_receive_fields data t m :
  record_receive data t m
  = mkMetrics (total_connections m)
              (total_bytes_received m + Py.len data)
              (total_messages m + 1)
              (start_time m) (end_time m)
              (message_timestamps m ++ [t]).
Proof. reflexivity. Qed.

(** Unfolding of the handler loop on a payload that is acknowledged. *)
Lemma handle_client_payload m t rest b data :
  recv t = Recv (b :: data) -> sent t = Sent ->
  handle_client m (t :: rest)
  = let m' := record_receive (b :: data) (now t) m in
    let '(m'', out, st) := handle_client m' rest in
    (m'', received_line (b :: data) (console t)
          :: SendAck (ack_text m') :: out, st).
Proof.
  intros Hr Hs. cbn [handle_client]. rewrite Hr, Hs. reflexivity.
Qed.

Lemma acks_sent_line data r out :
  acks_sent (received_line data r :: out) = acks_sent out.
Proof.
  unfold received_line. destruct (Utf8.decode data), r; reflexivity.
Qed.

Lemma acks_sent_payload data r ack out :
  acks_sent (received_line data r :: SendAck ack :: out)
  = ack :: acks_sent out.
Proof. rewrite acks_sent_line. reflexivity. Qed.

Lemma seq_shift_map {A : Type} (f : nat -> A) (a n : nat) :
  map f (seq (S a) n) = map (fun k => f (S k)) (seq a n).
Proof. rewrite <- seq_shift, map_map. reflexivity. Qed.

(** C1, as the code has it: a handler numbers its acknowledgments with the
    server-wide [total_messages] counter.  Run from metrics that have counted
    [t] messages, it sends [ACK:t+1], [ACK:t+2], ... in this order: consecutive
    and increasing, and starting at 1 exactly when the server has counted no
    message on any connection before. *)
Theorem C1_acks_follow_total_messages (m : metrics) (script : list turn) :
  let '(m', out, _) := handle_client m script in
  acks_sent out
  = map (fun k => ack_for (total_messages m + Z.of_nat k))
        (seq 1 (length (acks_sent out)))
  /\ total_messages m <= total_messages m'.
Proof.
  revert m. induction script as [|t rest IH]; intros m.
  - simpl. split; [reflexivity|lia].
  - cbn [handle_client].
    destruct (recv t) as [[|b data]|]; [simpl; split; [reflexivity|lia]| |
                                        simpl; split; [reflexivity|lia]].
    destruct (sent t).
    + specialize (IH (record_receive (b :: data) (now t) m)).
      destruct (handle_client (record_receive (b :: data) (now t) m) rest)
        as [[m'' out] st].
      destruct IH as [IH Hle].
      rewrite acks_sent_payload. cbn [length seq map]. split.
      * f_equal.
        rewrite IH at 1. rewrite (seq_shift_map _ 1).
        apply map_ext. intros k. rewrite record_receive_fields.
        cbn [total_messages]. f_equal. lia.
      * rewrite record_receive_fields in Hle. cbn [total_messages] in Hle. lia.
    + rewrite acks_sent_line, record_receive_fields. cbn.
      split; [reflexivity|lia].
Qed.

(** C1 as stated fails: a second connection, accepted after a first one has
    had one payload acknowledged, gets [ACK:2] for its first payload. *)
Lemma C1_numbering_not_per_connection :
  let '(m1, _, _) :=
    handle_client init [mkTurn (Recv [x61]) 1%Q Printed Sent;
                        mkTurn (Recv []) 2%Q Printed Sent] in
  acks_sent (snd (fst (handle_client m1
                         [mkTurn (Recv [x62]) 3%Q Printed Sent])))
  = [ack_for 2]
  /\ ~ numbered_from_one m1 [mkTurn (Recv [x62]) 3%Q Printed Sent].
Proof.
  cbn. split; [reflexivity|]. unfold numbered_from_one. cbn. discriminate.
Qed.

(** C9: a payload that is not valid UTF-8 is recorded and acknowledged like
    any other: its timestamp is appended, its length added to
    [total_bytes_received], [total_messages] incremented, the acknowledgment
    sent and the loop continued; only the console line differs. *)
Theorem C9_decode_failure_non_fatal (m : metrics) (t : turn)
    (rest : list turn) (b : byte) (data : list byte) :
  recv t = Recv (b :: data) -> sent t = Sent ->
  Utf8.decode (b :: data) = None ->
  let m' := mkMetrics (total_connections m)
                      (total_bytes_received m + Py.len (b :: data))
                      (total_messages m + 1)
                      (start_time m) (end_time m)
                      (message_timestamps m ++ [now t]) in
  handle_client m (t :: rest)
  = (let '(m'', out, st) := handle_client m' rest in
     (m'', PrintBinary (Py.len (b :: data))
           :: SendAck (ack_for (total_messages m + 1)) :: out, st))
  /\ forall t' b' data',
       recv t' = Recv (b' :: data') -> sent t' = Sent ->
       Utf8.decode (b' :: data') <> None ->
       Py.len (b' :: data') = Py.len (b :: data) -> now t' = now t ->
       fst (fst (handle_client m (t' :: rest)))
       = fst (fst (handle_client m (t :: rest))) /\
       acks_sent (snd (fst (handle_client m (t' :: rest))))
       = acks_sent (snd (fst (handle_client m (t :: rest)))) /\
       snd (handle_client m (t' :: rest)) = snd (handle_client m (t :: rest)).
Proof.
  intros Hr Hs Hd m'. split.
  - rewrite (handle_client_payload m t rest b data Hr Hs).
    rewrite record_receive_fields. fold m'.
    unfold received_line. rewrite Hd. reflexivity.
  - intros t' b' data' Hr' Hs' _ Hlen Hnow.
    rewrite (handle_client_payload m t rest b data Hr Hs).
    rewrite (handle_client_payload m t' rest b' data' Hr' Hs').
    rewrite !record_receive_fields, Hlen, Hnow. fold m'.
    cbv zeta.
    destruct (handle_client m' rest) as [[m'' out] st]. cbn [fst snd].
    rewrite !acks_sent_payload. unfold ack_text. cbn [total_messages]. auto.
Qed.

Lemma C9_decode_failure_non_fatal_witness :
  recv (mkTurn (Recv [xff]) 5%Q Printed Sent) = Recv [xff] /\
  Utf8.decode [xff] = None /\
  handle_client init [mkTurn (Recv [xff]) 5%Q Printed Sent]
  = (mkMetrics 0 1 1 None None [5%Q],
     [PrintBinary 1; SendAck (ack_for 1)], Waiting).
Proof.
  split; [reflexivity|]. split; [reflexivity|].
  exact (proj1 (C9_decode_failure_non_fatal
                  init (mkTurn (Recv [xff]) 5%Q Printed Sent) [] xff []
                  eq_refl eq_refl eq_refl)).
Defined.

(** *** Handlers as threads *)

Lemma run_app s a b :
  run s (a ++ b)
  = match run s a with Some s' => run s' b | None => None end.
Proof.
  revert s. induction a as [|x a IH]; intros s; simpl.
  - reflexivity.
  - destruct (step s x); [apply IH|reflexivity].
Qed.

Lemma nth_error_middle (l1 l2 : list pc) p :
  nth_error (l1 ++ p :: l2) (length l1) = Some p.
Proof. rewrite nth_error_app2, Nat.sub_diag by lia. reflexivity. Qed.

Lemma set_thread_middle (l1 l2 : list pc) p q :
  set_thread (length l1) q (l1 ++ p :: l2) = l1 ++ q :: l2.
Proof. induction l1 as [|x l1 IH]; simpl; [reflexivity|now rewrite IH]. Qed.

Ltac handler_steps H :=
  repeat (cbn [run step shared threads outputs] in H;
          rewrite ?nth_error_middle, ?set_thread_middle in H;
          cbn [step_handler shared threads outputs] in H).

(** One whole turn of a handler, run without preemption, is one pass of the
    loop of [handle_client]. *)
Lemma run_turn s tid t s' :
  run s (turn_actions tid t) = Some s' ->
  nth_error (threads s) tid = Some AtRecv /\
  shared s'
  = match recv t with
    | Recv (b :: data) => record_receive (b :: data) (now t) (shared s)
    | _ => shared s
    end.
Proof.
  intros Hrun.
  destruct (nth_error (threads s) tid) as [p|] eqn:Hp.
  2:{ exfalso. unfold turn_actions in Hrun.
      destruct (recv t) as [[|b data]|]; cbn [run step app] in Hrun;
        rewrite Hp in Hrun; discriminate. }
  assert (p = AtRecv) as ->.
  { unfold turn_actions in Hrun.
    destruct (recv t) as [[|b data]|]; cbn [run step app] in Hrun;
      rewrite Hp in Hrun; destruct p; try reflexivity;
      cbn [step_handler] in Hrun; discriminate. }
  split; [reflexivity|].
  apply nth_error_split in Hp as (l1 & l2 & Hts & Hlen). subst tid.
  destruct s as [m ts out]. cbn [threads shared] in *. subst ts.
  unfold turn_actions in Hrun.
  destruct (recv t) as [[|b data]|].
  - handler_steps Hrun. injection Hrun as <-. reflexivity.
  - destruct (sent t); cbn [app] in Hrun; handler_steps Hrun;
      injection Hrun as <-; reflexivity.
  - handler_steps Hrun. injection Hrun as <-. reflexivity.
Qed.

Lemma received_app a b : received (a ++ b) = received a ++ received b.
Proof. apply flat_map_app. Qed.

Lemma stamps_app a b : stamps (a ++ b) = stamps a ++ stamps b.
Proof. apply flat_map_app. Qed.

Lemma received_turn tid t :
  received (turn_actions tid t)
  = match recv t with Recv (b :: data) => [b :: data] | _ => [] end.
Proof.
  unfold turn_actions.
  destruct (recv t) as [[|b data]|]; try reflexivity.
  destruct (sent t); reflexivity.
Qed.

Lemma stamps_turn tid t :
  stamps (turn_actions tid t)
  = match recv t with Recv (b :: data) => [now t] | _ => [] end.
Proof.
  unfold turn_actions.
  destruct (recv t) as [[|b data]|]; try reflexivity.
  destruct (sent t); reflexivity.
Qed.

(** An append to [message_timestamps] is one operation: none is lost,
    whatever the schedule. *)
Lemma step_timestamps s a s' :
  step s a = Some s' ->
  message_timestamps (shared s')
  = message_timestamps (shared s) ++ stamps [a].
Proof.
  destruct a as [|tid i]; cbn [step].
  - intros [= <-]. cbn. now rewrite app_nil_r.
  - destruct (nth_error (threads s) tid) as [p|]; [|discriminate].
    destruct (step_handler (shared s) p i) as [[[m p'] out]|] eqn:Hh;
      [|discriminate].
    intros [= <-]. cbn [shared].
    destruct p, i; cbn in Hh; try discriminate;
      repeat match type of Hh with
             | context [match ?r with _ => _ end] => destruct r
             end;
      injection Hh as <- _ _; cbn; now rewrite ?app_nil_r.
Qed.

Lemma run_timestamps sched : forall s s',
  run s sched = Some s' ->
  message_timestamps (shared s')
  = message_timestamps (shared s) ++ stamps sched.
Proof.
  induction sched as [|a sched IH]; intros s s'; cbn [run].
  - intros [= <-]. cbn. now rewrite app_nil_r.
  - destruct (step s a) as [s1|] eqn:Hs; [|discriminate].
    intros Hrun. rewrite (IH _ _ Hrun), (step_timestamps _ _ _ Hs).
    rewrite <- app_assoc. f_equal.
    change (a :: sched) with ([a] ++ sched). now rewrite stamps_app.
Qed.

(** Only the accept loop writes [total_connections]. *)
Lemma step_connections s a s' :
  step s a = Some s' ->
  total_connections (shared s')
  = total_connections (shared s) + Py.len (accepts [a]).
Proof.
  destruct a as [|tid i]; cbn [step].
  - intros [= <-]. cbn. lia.
  - destruct (nth_error (threads s) tid) as [p|]; [|discriminate].
    destruct (step_handler (shared s) p i) as [[[m p'] out]|] eqn:Hh;
      [|discriminate].
    intros [= <-]. cbn [shared].
    destruct p, i; cbn in Hh; try discriminate;
      repeat match type of Hh with
             | context [match ?r with _ => _ end] => destruct r
             end;
      injection Hh as <- _ _; cbn; lia.
Qed.

Lemma run_connections sched : forall s s',
  run s sched = Some s' ->
  total_connections (shared s')
  = total_connections (shared s) + Py.len (accepts sched).
Proof.
  induction sched as [|a sched IH]; intros s s'; cbn [run].
  - intros [= <-]. cbn. lia.
  - destruct (step s a) as [s1|] eqn:Hs; [|discriminate].
    intros Hrun. rewrite (IH _ _ Hrun), (step_connections _ _ _ Hs).
    change (a :: sched) with ([a] ++ sched).
    unfold accepts at 3. rewrite flat_map_app. fold (accepts [a]).
    fold (accepts sched). unfold Py.len. rewrite length_app. lia.
Qed.

(** A handler thread that is given its turns without preemption does what
    [handle_client] does on the same script: same metrics, same outputs,
    and it ends waiting in [recv] or finished accordingly. *)
Lemma handle_client_one_turn s tid t :
  nth_error (threads s) tid = Some AtRecv ->
  let '(m', out, st) := handle_client (shared s) [t] in
  exists s',
    run s (turn_actions tid t) = Some s' /\
    shared s' = m' /\
    outputs s' = outputs s ++ map (pair tid) out /\
    length (threads s') = length (threads s) /\
    nth_error (threads s') tid
    = Some (match st with Waiting => AtRecv | Closed => Finished end).
Proof.
  intros Hp.
  apply nth_error_split in Hp as (l1 & l2 & Hts & Hlen). subst tid.
  destruct s as [m ts out0]. cbn [threads shared outputs] in *. subst ts.
  unfold turn_actions. cbn [handle_client].
  destruct (recv t) as [[|b data]|]; [| destruct (sent t) |];
    cbn [app];
    repeat (cbn [run step shared threads outputs];
            rewrite ?nth_error_middle, ?set_thread_middle;
            cbn [step_handler shared threads outputs]);
    eexists; (split; [reflexivity|]);
    cbn [shared threads outputs map app];
    rewrite <- ?app_assoc, ?nth_error_middle, ?length_app; cbn [app length];
    repeat split; reflexivity.
Qed.

(** C4, as the code has it: nothing guards [self.metrics].  When handlers
    take turns one whole payload at a time, every payload is counted, with
    its bytes and its timestamp; and an append to [message_timestamps] is
    never lost under any schedule.  (Counter increments can be lost when
    handlers are preempted inside them, as the schedule [race] shows.) *)
Theorem C4_updates_kept_when_serial :
  (forall (s0 : server) (turns : list (nat * turn)),
      updates_atomic s0 (serial turns)) /\
  (forall (s0 : server) (sched : list action) (s : server),
      run s0 sched = Some s ->
      message_timestamps (shared s)
      = message_timestamps (shared s0) ++ stamps sched /\
      total_connections (shared s)
      = total_connections (shared s0) + Py.len (accepts sched)).
Proof.
  split; [|intros s0 sched s Hrun; split;
           [now apply run_timestamps|now apply run_connections]].
  intros s0 turns. revert s0.
  induction turns as [|[tid t] turns IH]; intros s0 s Hrun Hq.
  - cbn in Hrun. injection Hrun as <-. cbn. rewrite app_nil_r.
    repeat split; lia.
  - unfold serial in Hrun. cbn [flat_map fst snd] in Hrun.
    fold (serial turns) in Hrun. rewrite run_app in Hrun.
    destruct (run s0 (turn_actions tid t)) as [s1|] eqn:H1; [|discriminate].
    destruct (IH s1 s Hrun Hq) as (Hm & Hb & Ht).
    apply run_turn in H1 as [_ H1].
    unfold serial. cbn [flat_map fst snd]. fold (serial turns).
    rewrite received_app, stamps_app, received_turn, stamps_turn.
    rewrite Hm, Hb, Ht, H1.
    destruct (recv t) as [[|b data]|]; cbn [app]; try (repeat split; reflexivity).
    rewrite record_receive_fields.
    cbn [total_messages total_bytes_received message_timestamps].
    rewrite <- app_assoc. cbn [app].
    repeat split.
    + unfold Py.len. cbn [length]. lia.
    + unfold total_len. cbn [fold_right]. lia.
Qed.

Lemma C4_updates_kept_when_serial_witness :
  run (started 100%Q)
      (Accept :: Accept
       :: serial [(0%nat, mkTurn (Recv [x61]) 101%Q Printed Sent);
                  (1%nat, mkTurn (Recv [x62]) 102%Q Printed Sent)])
  = Some (mkServer (mkMetrics 2 2 2 (Some 100%Q) None [101%Q; 102%Q])
                   [AtRecv; AtRecv]
                   [(0%nat, PrintReceived [97] 1); (0%nat, SendAck (ack_for 1));
                    (1%nat, PrintReceived [98] 1); (1%nat, SendAck (ack_for 2))])
  /\ updates_atomic (started 100%Q)
       (serial [(0%nat, mkTurn (Recv [x61]) 101%Q Printed Sent)]).
Proof.
  split; [vm_compute; reflexivity|].
  exact (proj1 C4_updates_kept_when_serial (started 100%Q)
               [(0%nat, mkTurn (Recv [x61]) 101%Q Printed Sent)]).
Defined.

(** C4 as stated fails: under [race] two payloads are received, stamped and
    acknowledged, and [total_messages] ends at 1. *)
Lemma C4_increment_lost :
  run (started 100%Q) race
  = Some (mkServer (mkMetrics 2 2 1 (Some 100%Q) None [101%Q; 102%Q])
                   [AtRecv; AtRecv]
                   [(0%nat, PrintReceived [97] 1); (0%nat, SendAck (ack_for 1));
                    (1%nat, PrintReceived [98] 1); (1%nat, SendAck (ack_for 1))])
  /\ received race = [[x61]; [x62]]
  /\ ~ updates_atomic (started 100%Q) race.
Proof.
  assert (Hrun : run (started 100%Q) race
                 = Some (mkServer
                           (mkMetrics 2 2 1 (Some 100%Q) None [101%Q; 102%Q])
                           [AtRecv; AtRecv]
                           [(0%nat, PrintReceived [97] 1);
                            (0%nat, SendAck (ack_for 1));
                            (1%nat, PrintReceived [98] 1);
                            (1%nat, SendAck (ack_for 1))]))
    by (vm_compute; reflexivity).
  split; [exact Hrun|]. split; [reflexivity|].
  intros H. destruct (H _ Hrun) as [Hm _].
  - unfold quiescent. cbn [threads]. repeat constructor; auto.
  - cbn [shared total_messages started set_start_time init] in Hm.
    vm_compute in Hm. discriminate.
Qed.

End ServerFacts.

(** ** The client *)

Section ClientFacts.
Import TCPClient.

(** [send_message] spelled out on the three ways a call can go. *)
Lemma send_message_eq (w : world) (msg : message) (c : client) :
  send_message w msg c
  = match message_bytes msg with
    | None =>
      ((false, 0%Q),
       mkClient (record_failure (data c)) (S (ticks c)) (S (calls c))
                (events c ++ [PrintSendFailed]))
    | Some b =>
      match sock w (calls c) with
      | RecvReturns ack =>
        let latency := (clock w (S (ticks c)) - clock w (ticks c))%Q in
        ((true, latency),
         mkClient (record_success (Py.len b) latency (clock w (ticks c))
                                  (data c))
                  (S (S (ticks c))) (S (calls c))
                  (events c ++ [Cycle b (RecvReturns ack)]))
      | o =>
        ((false, 0%Q),
         mkClient (record_failure (data c)) (S (ticks c)) (S (calls c))
                  ((events c ++ [Cycle b o]) ++ [PrintSendFailed]))
      end
    end.
Proof.
  unfold send_message, bind, time_time, next_cycle, send_failed, emit,
    update, ret. cbn.
  destruct (message_bytes msg) as [b|]; [|reflexivity].
  destruct (sock w (calls c)); reflexivity.
Qed.

Lemma completed_payloads_app a b :
  completed_payloads (a ++ b) = completed_payloads a ++ completed_payloads b.
Proof. apply flat_map_app. Qed.

Lemma total_len_app a b : total_len (a ++ b) = total_len a + total_len b.
Proof.
  unfold total_len. induction a as [|x a IH]; cbn [app fold_right]; lia.
Qed.

Lemma preserves_ret {A : Type} (a : A) : preserves (ret a).
Proof. intros c H. exact H. Qed.

Lemma preserves_bind {A B : Type} (x : M A) (f : A -> M B) :
  preserves x -> (forall a, preserves (f a)) -> preserves (bind x f).
Proof.
  intros Hx Hf c Hc. unfold bind.
  specialize (Hx c Hc). destruct (x c) as [a c']. now apply Hf.
Qed.

Lemma preserves_time_time w : preserves (time_time w).
Proof. intros c H. exact H. Qed.

Lemma preserves_emit e :
  completed_payloads [e] = [] -> preserves (emit e).
Proof.
  intros He c (H1 & H2 & H3 & H4). unfold consistent. cbn.
  rewrite completed_payloads_app, He, app_nil_r. auto.
Qed.

Lemma preserves_set_start_time t : preserves (update (set_start_time t)).
Proof. intros c H. exact H. Qed.

Lemma preserves_set_end_time t : preserves (update (set_end_time t)).
Proof. intros c H. exact H. Qed.

Lemma preserves_when b (x : M unit) : preserves x -> preserves (when b x).
Proof. destruct b; [auto|intros _; apply preserves_ret]. Qed.

Lemma preserves_send_message w msg : preserves (send_message w msg).
Proof.
  intros c (H1 & H2 & H3 & H4). rewrite send_message_eq.
  unfold consistent.
  destruct (message_bytes msg) as [b|].
  - destruct (sock w (calls c)) as [| |ack];
      cbn [snd data events calls record_failure record_success
           latencies total_messages_sent failed_messages total_bytes_sent];
      rewrite ?completed_payloads_app, ?total_len_app;
      cbn [completed_payloads flat_map app];
      rewrite ?app_nil_r; change (total_len []) with 0.
    + repeat split; lia.
    + repeat split; lia.
    + unfold Py.len in *. rewrite !length_app. cbn [length].
      unfold total_len at 2. cbn [fold_right]. unfold Py.len.
      repeat split; lia.
  - cbn [snd data events calls record_failure
         latencies total_messages_sent failed_messages total_bytes_sent].
    rewrite completed_payloads_app. cbn [completed_payloads flat_map app].
    rewrite app_nil_r. repeat split; lia.
Qed.

Lemma preserves_bulk_loop w msg n k : forall i,
  preserves (bulk_loop w msg n i k).
Proof.
  induction k as [|k IH]; intros i; cbn [bulk_loop].
  - apply preserves_ret.
  - apply preserves_bind; [apply preserves_send_message|]. intros r.
    apply preserves_bind; [|intros _; apply IH].
    destruct (fst r).
    + apply preserves_when, preserves_emit. reflexivity.
    + apply preserves_emit. reflexivity.
Qed.

Lemma preserves_send_bulk_messages w n size :
  preserves (send_bulk_messages w n size).
Proof.
  unfold send_bulk_messages.
  repeat (first [ apply preserves_bind; [|intros ?]
                | apply preserves_emit; reflexivity
                | apply preserves_time_time
                | apply preserves_set_start_time
                | apply preserves_set_end_time
                | apply preserves_bulk_loop ]).
Qed.

Lemma preserves_load_pass w msg r delay started count :
  preserves (load_pass w msg r delay started count).
Proof.
  unfold load_pass.
  apply preserves_bind; [apply preserves_time_time|]. intros t0.
  apply preserves_bind; [apply preserves_send_message|]. intros res.
  apply preserves_bind.
  - destruct (fst res && ((count + 1) mod r =? 0)).
    + apply preserves_bind; [apply preserves_time_time|]. intros t.
      apply preserves_emit. reflexivity.
    + apply preserves_ret.
  - intros _. apply preserves_bind; [apply preserves_time_time|]. intros t.
    destruct (Qlt_le_dec (t - t0) delay).
    + apply preserves_emit. reflexivity.
    + apply preserves_ret.
Qed.

Lemma preserves_load_loop w msg r delay started end_t fuel : forall count,
  preserves (load_loop fuel w msg r delay started end_t count).
Proof.
  induction fuel as [|fuel IH]; intros count; cbn [load_loop].
  - apply preserves_ret.
  - apply preserves_bind; [apply preserves_time_time|]. intros t.
    destruct (Qlt_le_dec t end_t).
    + apply preserves_bind; [apply preserves_load_pass|]. intros _. apply IH.
    + apply preserves_ret.
Qed.

Lemma preserves_send_variable_load fuel w d r size :
  preserves (send_variable_load fuel w d r size).
Proof.
  unfold send_variable_load.
  apply preserves_bind; [apply preserves_emit; reflexivity|]. intros _.
  apply preserves_bind; [apply preserves_time_time|]. intros t0.
  apply preserves_bind; [apply preserves_set_start_time|]. intros _.
  destruct (r =? 0); [apply preserves_ret|].
  apply preserves_bind; [apply preserves_time_time|]. intros t.
  apply preserves_bind; [apply preserves_load_loop|]. intros done.
  destruct done; [|apply preserves_ret].
  repeat (first [ apply preserves_bind; [|intros ?]
                | apply preserves_emit; reflexivity
                | apply preserves_time_time
                | apply preserves_set_end_time
                | apply preserves_ret ]).
Qed.

Lemma consistent_fresh : consistent fresh.
Proof. unfold consistent. cbn. repeat split; reflexivity. Qed.

(** C2: [send_message] counts a cycle as a message sent as soon as [recv]
    has returned, without looking at what it returned.  Against a peer that
    has closed the connection, a bulk run of three messages of four bytes
    records three messages sent, twelve bytes sent, three latency samples
    and no failure, although no message was acknowledged: the number of
    latency samples is not the number of acknowledged messages. *)
Theorem C2_empty_reply_counted_as_acknowledged :
  let c := snd (send_bulk_messages closed_peer 3 4 fresh) in
  data c = mkMetrics 3 12 [1; 1; 1]%Q [1; 3; 5]%Q (Some 0%Q) (Some 7%Q) 0 /\
  calls c = 3%nat /\
  acknowledged_payloads (events c) = [] /\
  Py.len (latencies (data c)) <> Py.len (acknowledged_payloads (events c)).
Proof.
  cbv zeta. split; [vm_compute; reflexivity|].
  split; [vm_compute; reflexivity|]. split; [vm_compute; reflexivity|].
  vm_compute. discriminate.
Qed.



Lemma sleeps_app a b : sleeps (a ++ b) = sleeps a ++ sleeps b.
Proof. apply flat_map_app. Qed.

Lemma send_message_calls_sleeps w msg c :
  calls (snd (send_message w msg c)) = S (calls c) /\
  sleeps (events (snd (send_message w msg c))) = sleeps (events c).
Proof.
  rewrite send_message_eq.
  destruct (message_bytes msg) as [b|];
    [destruct (sock w (calls c)) as [| |ack]|];
    cbn [snd calls events]; (split; [reflexivity|]);
    rewrite ?sleeps_app; cbn [sleeps flat_map app];
    rewrite ?app_nil_r; reflexivity.
Qed.

(** One pass of the rate-limited loop, with its clock readings named. *)
Lemma load_pass_eq w msg r delay started count c :
  load_pass w msg r delay started count c
  = let '(res, c1) :=
      send_message w msg
                   (mkClient (data c) (S (ticks c)) (calls c) (events c)) in
    let c2 :=
      if fst res && ((count + 1) mod r =? 0)
      then mkClient (data c1) (S (ticks c1)) (calls c1)
                    (events c1
                     ++ [PrintLoad (count + 1)
                                   (clock w (ticks c1) - started)%Q (snd res)])
      else c1 in
    let elapsed := (clock w (ticks c2) - clock w (ticks c))%Q in
    (tt, mkClient (data c2) (S (ticks c2)) (calls c2)
                  (events c2
                   ++ (if Qlt_le_dec elapsed delay
                       then [Sleep (delay - elapsed)%Q] else []))).
Proof.
  unfold load_pass, bind. cbn [time_time].
  destruct (send_message w msg
              (mkClient (data c) (S (ticks c)) (calls c) (events c)))
    as [res c1].
  destruct (fst res && ((count + 1) mod r =? 0));
    cbn [time_time emit ret ticks data calls events];
    match goal with
    | |- context [Qlt_le_dec ?e delay] => destruct (Qlt_le_dec e delay)
    end;
    cbn [emit ret ticks data calls events]; rewrite ?app_nil_r; reflexivity.
Qed.

(** One pass of the rate-limited loop makes one call of [send_message] and
    then asks for a sleep of [delay - elapsed] when that is positive, and
    for none otherwise; [elapsed] runs from the reading of line 122 to the
    reading of line 133. *)
Lemma load_pass_sleep w msg r delay started count c :
  let c' := snd (load_pass w msg r delay started count c) in
  let elapsed := (clock w (pred (ticks c')) - clock w (ticks c))%Q in
  calls c' = S (calls c) /\
  sleeps (events c')
  = sleeps (events c)
    ++ (if Qlt_le_dec elapsed delay then [(delay - elapsed)%Q] else []).
Proof.
  rewrite load_pass_eq.
  pose proof (send_message_calls_sleeps w msg
                (mkClient (data c) (S (ticks c)) (calls c) (events c)))
    as [Hcalls Hsleeps].
  destruct (send_message w msg
              (mkClient (data c) (S (ticks c)) (calls c) (events c)))
    as [res c1].
  cbn [snd calls events] in Hcalls, Hsleeps.
  cbv zeta. cbn [snd ticks calls events pred].
  set (c2 := if fst res && ((count + 1) mod r =? 0) then _ else c1).
  assert (Hc2 : calls c2 = S (calls c) /\
                sleeps (events c2) = sleeps (events c)).
  { subst c2. destruct (fst res && ((count + 1) mod r =? 0));
      cbn [calls events]; rewrite ?sleeps_app; cbn [sleeps flat_map app];
      rewrite ?app_nil_r; auto. }
  destruct Hc2 as [Hc2 Hs2]. split; [exact Hc2|].
  rewrite sleeps_app, Hs2. f_equal.
  destruct (Qlt_le_dec (clock w (ticks c2) - clock w (ticks c)) delay);
    reflexivity.
Qed.

(** *** Termination of the rate-limited run *)

Lemma send_message_ticks w msg c :
  (ticks c < ticks (snd (send_message w msg c)))%nat.
Proof.
  rewrite send_message_eq.
  destruct (message_bytes msg) as [b|];
    [destruct (sock w (calls c)) as [| |ack]|]; cbn [snd ticks]; lia.
Qed.

Lemma load_pass_ticks w msg r delay started count c :
  (ticks c < ticks (snd (load_pass w msg r delay started count c)))%nat.
Proof.
  rewrite load_pass_eq.
  pose proof (send_message_ticks w msg
                (mkClient (data c) (S (ticks c)) (calls c) (events c)))
    as Ht.
  destruct (send_message w msg
              (mkClient (data c) (S (ticks c)) (calls c) (events c)))
    as [res c1].
  cbn [snd ticks] in Ht. cbv zeta. cbn [snd ticks].
  destruct (fst res && ((count + 1) mod r =? 0)); cbn [ticks]; lia.
Qed.

(** Once the clock has passed the deadline for good, the loop ends: with
    enough fuel the condition is found false. *)
Lemma load_loop_terminates w msg r delay started end_t (K : nat) :
  (forall k, (K <= k)%nat -> (end_t <= clock w k)%Q) ->
  forall fuel count c,
    (K - ticks c < fuel)%nat ->
    fst (load_loop fuel w msg r delay started end_t count c) = true.
Proof.
  intros Hclock. induction fuel as [|fuel IH]; intros count c Hfuel; [lia|].
  cbn [load_loop]. unfold bind at 1. cbn [time_time].
  destruct (Qlt_le_dec (clock w (ticks c)) end_t) as [Hlt|Hge];
    [|reflexivity].
  assert (Hk : (ticks c < K)%nat).
  { destruct (Nat.lt_ge_cases (ticks c) K) as [?|Hle]; [assumption|].
    specialize (Hclock _ Hle). lra. }
  unfold bind at 1.
  pose proof (load_pass_ticks w msg r delay started count
                (mkClient (data c) (S (ticks c)) (calls c) (events c)))
    as Ht.
  destruct (load_pass w msg r delay started count
              (mkClient (data c) (S (ticks c)) (calls c) (events c)))
    as [u c'].
  cbn [snd ticks] in Ht. apply IH. lia.
Qed.

(** A rate-limited run completes, given enough fuel, whenever the clock
    eventually stays at or past [D] after the reading of line 118. *)
Lemma send_variable_load_completes w c d r size (K fuel : nat) :
  r <> 0 ->
  (forall k, (K <= k)%nat -> (clock w (S (ticks c)) + d <= clock w k)%Q) ->
  (K - ticks c < fuel)%nat ->
  fst (send_variable_load fuel w d r size c) = Completed.
Proof.
  intros Hr Hclock Hfuel.
  unfold send_variable_load, bind.
  cbn [emit time_time update ticks data calls events].
  destruct (Z.eqb_spec r 0) as [?|_]; [contradiction|].
  cbn [time_time ticks data calls events].
  match goal with
  | |- context [load_loop ?a ?b ?c ?d ?e ?f ?g ?h ?i] =>
    pose proof (load_loop_terminates b c d e f g K Hclock a h i) as Hdone;
    destruct (load_loop a b c d e f g h i) as [done c1]
  end.
  cbn [fst ticks] in Hdone. rewrite Hdone by lia. reflexivity.
Qed.

(** C8: in rate-limited mode the delay between messages is [1 / R] and the
    deadline is [D] after the reading of line 118; the loop makes a pass
    only when the clock reads less than the deadline, and stops at the first
    reading that does not; after the cycle of each pass it asks for a sleep
    of [max(0, delay - elapsed)] (no call of [sleep] when that is zero),
    with the same [delay] in every pass. *)
Theorem C8_rate_limited_loop (w : world) (c : client) :
  (forall fuel duration_seconds messages_per_second message_size,
      messages_per_second <> 0 ->
      let c0 :=
        mkClient (set_start_time (clock w (ticks c)) (data c))
                 (2 + ticks c) (calls c)
                 (events c ++ [PrintLoadStart duration_seconds
                                 messages_per_second message_size]) in
      let '(done, c1) :=
        load_loop fuel w (repeated 89 message_size) messages_per_second
                  (1 / inject_Z messages_per_second)%Q
                  (clock w (ticks c))
                  (clock w (1 + ticks c) + duration_seconds)%Q 0 c0 in
      send_variable_load fuel w duration_seconds messages_per_second
                         message_size c
      = if done
        then (Completed,
              mkClient (set_end_time (clock w (ticks c1)) (data c1))
                       (S (ticks c1)) (calls c1)
                       (events c1 ++ [PrintLoadComplete]))
        else (Running, c1)) /\
  (forall fuel msg r delay started end_t count,
      let c1 := mkClient (data c) (S (ticks c)) (calls c) (events c) in
      ((clock w (ticks c) < end_t)%Q ->
       load_loop (S fuel) w msg r delay started end_t count c
       = load_loop fuel w msg r delay started end_t (count + 1)
                   (snd (load_pass w msg r delay started count c1))) /\
      (~ (clock w (ticks c) < end_t)%Q ->
       load_loop (S fuel) w msg r delay started end_t count c
       = (true, c1))) /\
  (forall msg r delay started count,
      let c' := snd (load_pass w msg r delay started count c) in
      let elapsed := (clock w (pred (ticks c')) - clock w (ticks c))%Q in
      calls c' = S (calls c) /\
      exists asked,
        sleeps (events c') = sleeps (events c) ++ asked /\
        (asked = [] \/ asked = [(delay - elapsed)%Q]) /\
        (Py.sum asked == Qmax 0 (delay - elapsed))%Q).
Proof.
  split; [|split].
  - intros fuel d r size Hr c0. subst c0. cbn [Nat.add].
    unfold send_variable_load, bind.
    cbn [emit time_time update ticks data calls events].
    destruct (Z.eqb_spec r 0) as [?|_]; [contradiction|].
    cbn [time_time ticks data calls events].
    match goal with
    | |- context [load_loop ?a ?b ?c ?d ?e ?f ?g ?h ?i] =>
      destruct (load_loop a b c d e f g h i) as [done c1]
    end.
    destruct done; reflexivity.
  - intros fuel msg r delay started end_t count c1. split.
    + intros Hlt. cbn [load_loop]. unfold bind at 1. cbn [time_time].
      destruct (Qlt_le_dec (clock w (ticks c)) end_t) as [_|Hge]; [|lra].
      unfold bind at 1. fold c1.
      destruct (load_pass w msg r delay started count c1). reflexivity.
    + intros Hnlt. cbn [load_loop]. unfold bind at 1. cbn [time_time].
      destruct (Qlt_le_dec (clock w (ticks c)) end_t) as [Hlt|_];
        [contradiction|]. reflexivity.
  - intros msg r delay started count c' elapsed.
    destruct (load_pass_sleep w msg r delay started count c) as [Hc Hs].
    fold c' in Hc, Hs. fold elapsed in Hs. split; [exact Hc|].
    destruct (Qlt_le_dec elapsed delay) as [Hlt|Hge].
    + exists [(delay - elapsed)%Q]. split; [exact Hs|]. split; [now right|].
      unfold Py.sum. cbn [fold_left]. rewrite Q.max_r by lra. lra.
    + exists []. split; [exact Hs|]. split; [now left|].
      unfold Py.sum. cbn [fold_left]. rewrite Q.max_l by lra. reflexivity.
Qed.

Lemma C8_rate_limited_loop_witness :
  (10 : Z) <> 0 /\
  sleeps (events (snd (load_pass sample_world (Bytes [x59]) 10 5%Q 0%Q 0
                                 fresh))) = [2%Q] /\
  (exists asked,
      sleeps (events (snd (load_pass sample_world (Bytes [x59]) 10 5%Q 0%Q 0
                                     fresh)))
      = sleeps (events fresh) ++ asked /\
      (Py.sum asked
       == Qmax 0 (5 - (clock sample_world 3 - clock sample_world 0)))%Q) /\
  fst (send_variable_load 20 sample_world 10%Q 10 512 fresh) = Completed /\
  sleeps (events (snd (send_variable_load 20 sample_world 10%Q 10 512 fresh)))
  = [] /\
  forall fuel,
    send_variable_load fuel sample_world 10%Q 10 512 fresh
    = (let '(done, c1) :=
         load_loop fuel sample_world (repeated 89 512) 10
                   (1 / inject_Z 10)%Q 0%Q (1 + 10)%Q 0
                   (mkClient (set_start_time 0%Q init) 2 0
                             [PrintLoadStart 10%Q 10 512]) in
       if done
       then (Completed,
             mkClient (set_end_time (clock sample_world (ticks c1)) (data c1))
                      (S (ticks c1)) (calls c1)
                      (events c1 ++ [PrintLoadComplete]))
       else (Running, c1)).
Proof.
  split; [discriminate|]. split; [vm_compute; reflexivity|].
  split.
  { destruct (proj2 (proj2 (C8_rate_limited_loop sample_world fresh))
                    (Bytes [x59]) 10 5%Q 0%Q 0)
      as (_ & asked & Hs & _ & Hsum).
    exists asked. split; [exact Hs|exact Hsum]. }
  split; [vm_compute; reflexivity|].
  split; [vm_compute; reflexivity|].
  intros fuel.
  pose proof (proj1 (C8_rate_limited_loop sample_world fresh)
                    fuel 10%Q 10 512 ltac:(discriminate)) as H.
  cbv zeta in H. cbn [fresh ticks data calls events Nat.add app] in H.
  change (clock sample_world 0) with 0%Q in H.
  change (clock sample_world 1) with 1%Q in H.
  destruct (load_loop fuel sample_world (repeated 89 512) 10
                      (1 / inject_Z 10)%Q 0%Q (1 + 10)%Q 0
                      (mkClient (set_start_time 0%Q init) 2 0
                                [PrintLoadStart 10%Q 10 512])) as [done c1].
  exact H.
Defined.

(** *** The report *)

Lemma len_sorted l : Py.len (Py.sorted l) = Py.len l.
Proof. unfold Py.len. now rewrite sorted_length. Qed.

Lemma len_map {A B : Type} (f : A -> B) l : Py.len (map f l) = Py.len l.
Proof. unfold Py.len. now rewrite length_map. Qed.

Lemma len_pos {A : Type} (l : list A) : l <> [] -> 0 < Py.len l.
Proof. destruct l; [congruence|]. intros _. unfold Py.len. cbn. lia. Qed.

(** The three indices are in range, and ordered. *)
Lemma percentile_indices n :
  0 < n < 2 ^ 46 ->
  Binary64.int_mul n Binary64.m0_95 = 95 * n / 100 /\
  Binary64.int_mul n Binary64.m0_99 = 99 * n / 100 /\
  0 <= n / 2 <= 95 * n / 100 /\ 95 * n / 100 <= 99 * n / 100 < n.
Proof.
  intros Hn. rewrite int_mul_95, int_mul_99 by lia.
  repeat split; try reflexivity.
  - apply Z.div_pos; lia.
  - replace (n / 2) with (50 * n / 100).
    + apply Z.div_le_mono; lia.
    + replace (50 * n) with (n * 50) by lia.
      replace 100 with (2 * 50) by lia.
      apply Z.div_mul_cancel_r; lia.
  - apply Z.div_le_mono; lia.
  - apply Z.div_lt_upper_bound; lia.
Qed.

(** The latency block of [display_metrics] on a non-empty sample list. *)
Lemma latency_statistics_spec (l : list Q) :
  l <> [] -> Py.len l < 2 ^ 46 ->
  let ms := map to_ms l in
  let s := Py.sorted ms in
  let n := Py.len l in
  exists lo hi x50 x95 x99,
    latency_statistics l
    = Py.Ok (Some (mkLatency (Binary64.div (Py.fsum ms)
                                           (Binary64.of_int (Py.len ms)))
                             lo hi x50 x95 x99)) /\
    Forall (fun x => (lo <= x)%Q) ms /\ Forall (fun x => (x <= hi)%Q) ms /\
    nth_error s (Z.to_nat (n / 2)) = Some x50 /\
    nth_error s (Z.to_nat (95 * n / 100)) = Some x95 /\
    nth_error s (Z.to_nat (99 * n / 100)) = Some x99 /\
    Py.index s (n / 2) = Py.Ok x50 /\
    Py.index s (95 * n / 100) = Py.Ok x95 /\
    Py.index s (99 * n / 100) = Py.Ok x99.
Proof.
  intros Hne Hlen ms s n.
  assert (Hn : 0 < n < 2 ^ 46) by (split; [now apply len_pos|assumption]).
  assert (Hms : ms <> []) by (subst ms; destruct l; [congruence|discriminate]).
  assert (Hs : Py.len s = n) by (subst s ms; now rewrite len_sorted, len_map).
  destruct (percentile_indices n Hn) as (H95 & H99 & [H0 H1] & [H2 H3]).
  destruct (min_spec ms Hms) as (lo & Hmin & Hlo).
  destruct (max_spec ms Hms) as (hi & Hmax & Hhi).
  destruct (index_in_range s (n / 2)) as (x50 & Hi50 & Hn50); [lia|].
  destruct (index_in_range s (95 * n / 100)) as (x95 & Hi95 & Hn95); [lia|].
  destruct (index_in_range s (99 * n / 100)) as (x99 & Hi99 & Hn99); [lia|].
  exists lo, hi, x50, x95, x99.
  split; [|repeat split; assumption].
  unfold latency_statistics. fold n.
  destruct (Z.ltb_spec 0 n) as [_|?]; [|lia].
  cbv zeta. fold ms. rewrite Hmin, Hmax. cbn [try]. fold s.
  rewrite Hs, H95, H99, Hi50, Hi95, Hi99. reflexivity.
Qed.

(** C5: for a non-empty list of latency samples the report sorts the
    samples (in milliseconds) in ascending order and takes p50, p95 and p99
    at the indices [floor(len * 0.50)], [floor(len * 0.95)] and
    [floor(len * 0.99)] of the sorted list.  (Lists are shorter than [2^46]
    elements: beyond that the binary64 product [len * 0.95] is no longer
    good to the unit.) *)
Theorem C5_percentiles_by_sorted_index (latencies : list Q) :
  latencies <> [] -> Py.len latencies < 2 ^ 46 ->
  let latencies_ms := map to_ms latencies in
  let sorted_latencies := Py.sorted latencies_ms in
  let n := inject_Z (Py.len latencies) in
  Sorted Qle sorted_latencies /\
  Permutation sorted_latencies latencies_ms /\
  exists st,
    latency_statistics latencies = Py.Ok (Some st) /\
    Py.index sorted_latencies (Qfloor (n * (50 # 100))) = Py.Ok (p50 st) /\
    Py.index sorted_latencies (Qfloor (n * (95 # 100))) = Py.Ok (p95 st) /\
    Py.index sorted_latencies (Qfloor (n * (99 # 100))) = Py.Ok (p99 st).
Proof.
  intros Hne Hlen ms s n.
  split; [apply sorted_Sorted|]. split; [apply sorted_Permutation|].
  destruct (latency_statistics_spec latencies Hne Hlen)
    as (lo & hi & x50 & x95 & x99 & Hst & _ & _ & _ & _ & _ & H50 & H95 & H99).
  eexists. split; [exact Hst|]. cbn [p50 p95 p99].
  subst n. rewrite !Qfloor_percent.
  replace (50 * Py.len latencies / 100) with (Py.len latencies / 2).
  - auto.
  - replace (50 * Py.len latencies) with (Py.len latencies * 50) by lia.
    replace 100 with (2 * 50) by lia.
    symmetry. apply Z.div_mul_cancel_r; lia.
Qed.

Lemma C5_percentiles_by_sorted_index_witness :
  [3 # 1000; 1 # 1000; 2 # 1000]%Q <> [] /\
  latency_statistics [3 # 1000; 1 # 1000; 2 # 1000]%Q
  = Py.Ok (Some (mkLatency 2 1 3 2 3 3)%Q) /\
  exists st,
    latency_statistics [3 # 1000; 1 # 1000; 2 # 1000]%Q = Py.Ok (Some st) /\
    Py.index (Py.sorted (map to_ms [3 # 1000; 1 # 1000; 2 # 1000]%Q))
             (Qfloor (inject_Z 3 * (95 # 100))) = Py.Ok (p95 st).
Proof.
  split; [discriminate|]. split; [vm_compute; reflexivity|].
  destruct (C5_percentiles_by_sorted_index
              [3 # 1000; 1 # 1000; 2 # 1000]%Q
              ltac:(discriminate) ltac:(reflexivity))
    as (_ & _ & st & Hst & _ & H95 & _).
  exists st. split; [exact Hst|exact H95].
Defined.




End ClientFacts.

(** ** The reports of client and server *)

Section ReportFacts.

Lemma truthy_nonzero (t : Q) : ~ (t == 0)%Q -> Py.truthy (Some t) = true.
Proof.
  intros H. unfold Py.truthy.
  destruct (Qeq_bool t 0) eqn:E; [|reflexivity].
  apply Qeq_bool_iff in E. contradiction.
Qed.

(** The latency block never raises on a list of fewer than [2^46] samples,
    and prints nothing for the empty list. *)
Lemma latency_statistics_total (l : list Q) :
  Py.len l < 2 ^ 46 ->
  exists lat, TCPClient.latency_statistics l = Py.Ok lat /\
              (l = [] -> lat = None).
Proof.
  intros Hlen. destruct l as [|x l].
  - exists None. split; reflexivity.
  - destruct (latency_statistics_spec (x :: l) ltac:(discriminate) Hlen)
      as (lo & hi & x50 & x95 & x99 & Hst & _).
    eexists. split; [exact Hst|discriminate].
Qed.

(** C7: when messages were counted and the duration is positive, the report
    gives throughput as [total_bytes * 8 / duration / 1_000_000] and
    messages per second as [total_messages / duration], on the client and on
    the server (arithmetic on exact rationals). *)
Theorem C7_throughput_identity :
  (forall (m : TCPClient.metrics) (s e : Q),
      Py.len (TCPClient.latencies m) < 2 ^ 46 ->
      0 < TCPClient.total_messages_sent m ->
      TCPClient.start_time m = Some s -> ~ (s == 0)%Q ->
      TCPClient.end_time m = Some e -> (0 < e - s)%Q ->
      exists r rt,
        TCPClient.display_metrics m = Py.Ok r /\
        TCPClient.throughput_lines r = Some rt /\
        TCPClient.throughput rt
        = (inject_Z (TCPClient.total_bytes_sent m * 8) / (e - s) / 1000000)%Q /\
        TCPClient.msg_per_sec rt
        = (inject_Z (TCPClient.total_messages_sent m) / (e - s))%Q) /\
  (forall (m : TCPServer.metrics) (s e : Q),
      0 < TCPServer.total_messages m ->
      TCPServer.start_time m = Some s -> ~ (s == 0)%Q ->
      TCPServer.end_time m = Some e -> (0 < e - s)%Q ->
      exists r rt,
        TCPServer.display_metrics m = Py.Ok r /\
        TCPServer.throughput_lines r = Some rt /\
        TCPServer.throughput rt
        = (inject_Z (TCPServer.total_bytes_received m * 8) / (e - s)
           / 1000000)%Q /\
        TCPServer.msg_per_sec rt
        = (inject_Z (TCPServer.total_messages m) / (e - s))%Q).
Proof.
  split.
  - intros m s e Hlen Hpos Hs Hs0 He Hd.
    destruct (latency_statistics_total _ Hlen) as (lat & Hlat & _).
    unfold TCPClient.display_metrics, TCPClient.throughput_statistics.
    rewrite Hlat, Hs, He, (truthy_nonzero s Hs0).
    destruct (Z.ltb_spec 0 (TCPClient.total_messages_sent m)) as [_|?]; [|lia].
    cbn [andb TCPClient.try].
    destruct (Qlt_le_dec 0 (e - s)) as [_|Hle]; [|lra].
    cbn [TCPClient.try]. do 2 eexists. repeat split.
  - intros m s e Hpos Hs Hs0 He Hd.
    unfold TCPServer.display_metrics.
    rewrite Hs, He, (truthy_nonzero s Hs0).
    destruct (Z.ltb_spec 0 (TCPServer.total_messages m)) as [_|?]; [|lia].
    cbn [andb].
    destruct (Qlt_le_dec 0 (e - s)) as [_|Hle]; [|lra].
    do 2 eexists. repeat split.
Qed.

Lemma C7_throughput_identity_witness :
  (exists r rt,
      TCPClient.display_metrics
        (TCPClient.mkMetrics 2 2048 [1 # 1000; 2 # 1000]%Q [1000; 1001]%Q
                             (Some 1000%Q) (Some 1004%Q) 0)
      = Py.Ok r /\
      TCPClient.throughput_lines r = Some rt /\
      TCPClient.throughput rt
      = (inject_Z (2048 * 8) / (1004 - 1000) / 1000000)%Q /\
      TCPClient.msg_per_sec rt = (inject_Z 2 / (1004 - 1000))%Q) /\
  exists r rt,
    TCPServer.display_metrics
      (TCPServer.mkMetrics 1 102400 100 (Some 1000%Q) (Some 1002%Q) [])
    = Py.Ok r /\
    TCPServer.throughput_lines r = Some rt /\
    TCPServer.throughput rt
    = (inject_Z (102400 * 8) / (1002 - 1000) / 1000000)%Q /\
    TCPServer.msg_per_sec rt = (inject_Z 100 / (1002 - 1000))%Q.
Proof.
  split.
  - apply (proj1 C7_throughput_identity
                 (TCPClient.mkMetrics 2 2048 [1 # 1000; 2 # 1000]%Q
                                      [1000; 1001]%Q
                                      (Some 1000%Q) (Some 1004%Q) 0)
                 1000%Q 1004%Q).
    + reflexivity.
    + reflexivity.
    + reflexivity.
    + discriminate.
    + reflexivity.
    + reflexivity.
  - apply (proj2 C7_throughput_identity
                 (TCPServer.mkMetrics 1 102400 100 (Some 1000%Q)
                                      (Some 1002%Q) [])
                 1000%Q 1002%Q).
    + reflexivity.
    + reflexivity.
    + discriminate.
    + reflexivity.
    + reflexivity.
Defined.

(** C10: reporting is total at its edge cases.  The three percentile indices
    of a non-empty sample list are below its length, so the latency block
    raises no [IndexError]; with no message counted, or with a duration of
    zero, the report is still produced and carries no throughput lines (no
    division is evaluated); with no sample it carries no latency lines. *)
Theorem C10_reporting_total :
  (forall latencies : list Q,
      latencies <> [] -> Py.len latencies < 2 ^ 46 ->
      let n := Py.len (Py.sorted (map TCPClient.to_ms latencies)) in
      0 <= n / 2 < n /\
      0 <= Binary64.int_mul n Binary64.m0_95 < n /\
      0 <= Binary64.int_mul n Binary64.m0_99 < n /\
      exists st, TCPClient.latency_statistics latencies = Py.Ok (Some st)) /\
  (forall m : TCPClient.metrics,
      Py.len (TCPClient.latencies m) < 2 ^ 46 ->
      TCPClient.total_messages_sent m = 0 \/
      (exists t, TCPClient.start_time m = Some t /\
                 TCPClient.end_time m = Some t) ->
      exists r,
        TCPClient.display_metrics m = Py.Ok r /\
        TCPClient.throughput_lines r = None /\
        (TCPClient.latencies m = [] -> TCPClient.latency_lines r = None)) /\
  (forall m : TCPServer.metrics,
      TCPServer.total_messages m = 0 \/
      (exists t, TCPServer.start_time m = Some t /\
                 TCPServer.end_time m = Some t) ->
      exists r,
        TCPServer.display_metrics m = Py.Ok r /\
        TCPServer.throughput_lines r = None).
Proof.
  split; [|split].
  - intros l Hne Hlen n.
    assert (Hn : n = Py.len l) by (subst n; now rewrite len_sorted, len_map).
    assert (Hb : 0 < n < 2 ^ 46)
      by (rewrite Hn; split; [now apply len_pos|assumption]).
    destruct (percentile_indices n Hb) as (H95 & H99 & [H0 H1] & [H2 H3]).
    rewrite H95, H99.
    destruct (latency_statistics_spec l Hne Hlen)
      as (lo & hi & x50 & x95 & x99 & Hst & _).
    repeat split; try lia. eexists. exact Hst.
  - intros m Hlen Hcase.
    destruct (latency_statistics_total _ Hlen) as (lat & Hlat & Hnone).
    unfold TCPClient.display_metrics, TCPClient.throughput_statistics.
    rewrite Hlat. cbn [TCPClient.try].
    destruct Hcase as [H0 | (t & Hs & He)].
    + rewrite H0. cbn [Z.ltb Z.compare andb TCPClient.try].
      eexists. repeat split. exact Hnone.
    + rewrite Hs, He.
      destruct ((0 <? TCPClient.total_messages_sent m)
                && Py.truthy (Some t)).
      * destruct (Qlt_le_dec 0 (t - t)) as [Hlt|_]; [lra|].
        cbn [TCPClient.try]. eexists. repeat split. exact Hnone.
      * cbn [TCPClient.try]. eexists. repeat split. exact Hnone.
  - intros m Hcase. unfold TCPServer.display_metrics.
    destruct Hcase as [H0 | (t & Hs & He)].
    + rewrite H0. cbn [Z.ltb Z.compare andb]. eexists. repeat split.
    + rewrite Hs, He.
      destruct ((0 <? TCPServer.total_messages m) && Py.truthy (Some t)).
      * destruct (Qlt_le_dec 0 (t - t)) as [Hlt|_]; [lra|].
        eexists. repeat split.
      * eexists. repeat split.
Qed.

Lemma C10_reporting_total_witness :
  (0 <= Binary64.int_mul 3 Binary64.m0_99 < 3 /\
   exists st,
     TCPClient.latency_statistics [3 # 1000; 1 # 1000; 2 # 1000]%Q
     = Py.Ok (Some st)) /\
  (exists r,
      TCPClient.display_metrics TCPClient.init = Py.Ok r /\
      TCPClient.throughput_lines r = None /\
      (TCPClient.latencies TCPClient.init = [] ->
       TCPClient.latency_lines r = None)) /\
  (exists r,
      TCPServer.display_metrics
        (TCPServer.mkMetrics 1 5 1 (Some 7%Q) (Some 7%Q) [7%Q]) = Py.Ok r /\
      TCPServer.throughput_lines r = None).
Proof.
  split; [|split].
  - destruct (proj1 C10_reporting_total [3 # 1000; 1 # 1000; 2 # 1000]%Q
                    ltac:(discriminate) ltac:(reflexivity))
      as (_ & _ & H99 & Hst).
    split; [exact H99|exact Hst].
  - apply (proj1 (proj2 C10_reporting_total) TCPClient.init).
    + reflexivity.
    + left. reflexivity.
  - apply (proj2 (proj2 C10_reporting_total)
                 (TCPServer.mkMetrics 1 5 1 (Some 7%Q) (Some 7%Q) [7%Q])).
    right. exists 7%Q. split; reflexivity.
Defined.

End ReportFacts.

(* ================================================================== *)
(** * Part III: further properties *)
(* ================================================================== *)

(** ** Text payloads from client to server *)

Section Utf8Facts.

Lemma Some_inj {A : Type} (x y : A) : Some x = Some y -> x = y.
Proof. congruence. Qed.

Lemma byte_round z : 0 <= z < 256 -> Utf8.byte_to_Z (Utf8.byte_of_Z z) = z.
Proof.
  intros Hz. unfold Utf8.byte_to_Z, Utf8.byte_of_Z.
  destruct (Byte.of_N (Z.to_N z)) as [b|] eqn:E.
  - apply Byte.to_of_N in E. rewrite E. lia.
  - apply Byte.of_N_None_iff in E. lia.
Qed.

Ltac decide_tests :=
  repeat match goal with
         | |- context [?a <? ?b] => destruct (Z.ltb_spec a b); try lia
         | |- context [?a <=? ?b] => destruct (Z.leb_spec a b); try lia
         end.

Lemma decode_points_1 b0 rest :
  0 <= b0 < 128 ->
  Utf8.decode_points (b0 :: rest)
  = option_map (cons b0) (Utf8.decode_points rest).
Proof. intros H. cbn [Utf8.decode_points]. decide_tests. reflexivity. Qed.

Lemma decode_points_2 b0 b1 rest :
  194 <= b0 < 224 -> 128 <= b1 <= 191 ->
  Utf8.decode_points (b0 :: b1 :: rest)
  = option_map (cons ((b0 - 192) * 64 + (b1 - 128)))
               (Utf8.decode_points rest).
Proof.
  intros H0 H1. cbn [Utf8.decode_points]. unfold Utf8.cont.
  decide_tests. reflexivity.
Qed.

Lemma decode_points_3 b0 b1 b2 rest :
  224 <= b0 < 240 -> 128 <= b1 <= 191 -> 128 <= b2 <= 191 ->
  let c := (b0 - 224) * 4096 + (b1 - 128) * 64 + (b2 - 128) in
  2048 <= c -> ~ (55296 <= c <= 57343) ->
  Utf8.decode_points (b0 :: b1 :: b2 :: rest)
  = option_map (cons c) (Utf8.decode_points rest).
Proof.
  intros H0 H1 H2 c Hc Hs. cbn [Utf8.decode_points].
  fold c. unfold Utf8.cont, Utf8.surrogate.
  destruct (Z.ltb_spec b0 128); [lia|].
  destruct (Z.ltb_spec b0 194); [lia|].
  destruct (Z.ltb_spec b0 224); [lia|].
  destruct (Z.ltb_spec b0 240); [|lia].
  destruct (Z.leb_spec 128 b1); [|lia].
  destruct (Z.leb_spec b1 191); [|lia].
  destruct (Z.leb_spec 128 b2); [|lia].
  destruct (Z.leb_spec b2 191); [|lia].
  destruct (Z.leb_spec 2048 c); [|lia].
  destruct (Z.leb_spec 55296 c); destruct (Z.leb_spec c 57343);
    try lia; reflexivity.
Qed.

Lemma decode_points_4 b0 b1 b2 b3 rest :
  240 <= b0 < 245 -> 128 <= b1 <= 191 -> 128 <= b2 <= 191 ->
  128 <= b3 <= 191 ->
  let c := (b0 - 240) * 262144 + (b1 - 128) * 4096
           + (b2 - 128) * 64 + (b3 - 128) in
  65536 <= c <= 1114111 ->
  Utf8.decode_points (b0 :: b1 :: b2 :: b3 :: rest)
  = option_map (cons c) (Utf8.decode_points rest).
Proof.
  intros H0 H1 H2 H3 c Hc. cbn [Utf8.decode_points].
  fold c. unfold Utf8.cont.
  destruct (Z.ltb_spec b0 128); [lia|].
  destruct (Z.ltb_spec b0 194); [lia|].
  destruct (Z.ltb_spec b0 224); [lia|].
  destruct (Z.ltb_spec b0 240); [lia|].
  destruct (Z.ltb_spec b0 245); [|lia].
  destruct (Z.leb_spec 128 b1); [|lia].
  destruct (Z.leb_spec b1 191); [|lia].
  destruct (Z.leb_spec 128 b2); [|lia].
  destruct (Z.leb_spec b2 191); [|lia].
  destruct (Z.leb_spec 128 b3); [|lia].
  destruct (Z.leb_spec b3 191); [|lia].
  destruct (Z.leb_spec 65536 c); [|lia].
  destruct (Z.leb_spec c 1114111); [|lia].
  reflexivity.
Qed.

(** The bytes of one encoded code point decode to that code point. *)
Lemma encode_point_decode c bs rest :
  Utf8.encode_point c = Some bs ->
  Utf8.decode_points (bs ++ rest)
  = option_map (cons c) (Utf8.decode_points rest) /\
  Forall (fun z => 0 <= z < 256) bs.
Proof.
  unfold Utf8.encode_point, Utf8.surrogate.
  pose proof (Z.div_mod c 64 ltac:(lia)) as D1.
  pose proof (Z.mod_pos_bound c 64 ltac:(lia)) as M1.
  pose proof (Z.div_mod (c / 64) 64 ltac:(lia)) as D2.
  pose proof (Z.mod_pos_bound (c / 64) 64 ltac:(lia)) as M2.
  pose proof (Z.div_mod (c / 64 / 64) 64 ltac:(lia)) as D3.
  pose proof (Z.mod_pos_bound (c / 64 / 64) 64 ltac:(lia)) as M3.
  assert (E2 : c / 4096 = c / 64 / 64)
    by (rewrite Z.div_div by lia; reflexivity).
  assert (E3 : c / 262144 = c / 64 / 64 / 64)
    by (rewrite !Z.div_div by lia; reflexivity).
  destruct (Z.ltb_spec c 0); [discriminate|].
  destruct (Z.ltb_spec c 128).
  { intros Hbs; apply Some_inj in Hbs; subst bs.
    rewrite <- ?app_comm_cons, app_nil_l. rewrite decode_points_1 by lia.
    split; [reflexivity|repeat constructor; lia]. }
  destruct (Z.ltb_spec c 2048).
  { intros Hbs; apply Some_inj in Hbs; subst bs.
    rewrite <- ?app_comm_cons, app_nil_l. rewrite decode_points_2 by lia.
    split; [f_equal; f_equal; lia|repeat constructor; lia]. }
  destruct (Z.leb_spec 55296 c); destruct (Z.leb_spec c 57343);
    cbn [andb]; try discriminate.
  all: destruct (Z.ltb_spec c 65536).
  all: try (intros Hbs; apply Some_inj in Hbs; subst bs;
            rewrite <- ?app_comm_cons, app_nil_l; rewrite E2;
            rewrite decode_points_3 by lia;
            split; [f_equal; f_equal; lia|repeat constructor; lia]).
  all: destruct (Z.leb_spec c 1114111); [|discriminate].
  all: intros Hbs; apply Some_inj in Hbs; subst bs;
       rewrite <- ?app_comm_cons, app_nil_l; rewrite E3, E2;
       rewrite decode_points_4 by lia;
       split; [f_equal; f_equal; lia|repeat constructor; lia].
Qed.

Lemma encode_decode s : forall bytes,
  Utf8.encode s = Some bytes -> Utf8.decode bytes = Some s.
Proof.
  unfold Utf8.decode.
  induction s as [|c s IH]; intros bytes; cbn [Utf8.encode].
  - intros Hb. apply Some_inj in Hb. subst bytes. reflexivity.
  - destruct (Utf8.encode_point c) as [bs|] eqn:Ec; [|discriminate].
    destruct (Utf8.encode s) as [rest|]; [|discriminate].
    intros Hb. apply Some_inj in Hb. subst bytes.
    destruct (encode_point_decode c bs (map Utf8.byte_to_Z rest) Ec)
      as [Hd Hb].
    rewrite map_app, map_map.
    replace (map (fun x => Utf8.byte_to_Z (Utf8.byte_of_Z x)) bs) with bs.
    + rewrite Hd, (IH rest eq_refl). reflexivity.
    + clear Hd Ec. induction Hb as [|z bs Hz Hb IHb]; cbn [map].
      * reflexivity.
      * now rewrite byte_round, <- IHb.
Qed.

(** X1: whatever [str] the client sends, the payload it puts on the socket
    decodes on the server to the same string: the decode of line 88 never
    fails on it.  The handler then prints the text line with the first 50
    characters of the original message when the console accepts them, and
    the binary-data line when the [print] of the text raises; a client text
    gets the binary-data line in that case only. *)
Theorem X1_text_payload_decodes_on_server (s : list Z) (payload : list byte) :
  TCPClient.message_bytes (TCPClient.Str s) = Some payload ->
  Utf8.decode payload = Some s /\
  TCPServer.received_line payload TCPServer.Printed
  = TCPServer.PrintReceived (firstn 50 s) (Py.len payload) /\
  TCPServer.received_line payload TCPServer.PrintRaises
  = TCPServer.PrintBinary (Py.len payload).
Proof.
  cbn [TCPClient.message_bytes]. intros He.
  pose proof (encode_decode s payload He) as Hd.
  split; [exact Hd|]. unfold TCPServer.received_line. rewrite Hd.
  split; reflexivity.
Qed.

Lemma X1_text_payload_decodes_on_server_witness :
  TCPClient.message_bytes (TCPClient.Str [72; 233; 8364; 128512])
  = Some [x48; xc3; xa9; xe2; x82; xac; xf0; x9f; x98; x80] /\
  TCPServer.received_line [x48; xc3; xa9; xe2; x82; xac; xf0; x9f; x98; x80]
                          TCPServer.Printed
  = TCPServer.PrintReceived [72; 233; 8364; 128512] 10 /\
  TCPServer.received_line [x48; xc3; xa9; xe2; x82; xac; xf0; x9f; x98; x80]
                          TCPServer.PrintRaises
  = TCPServer.PrintBinary 10.
Proof.
  split; [vm_compute; reflexivity|].
  exact (proj2 (X1_text_payload_decodes_on_server
                  [72; 233; 8364; 128512]
                  [x48; xc3; xa9; xe2; x82; xac; xf0; x9f; x98; x80]
                  ltac:(vm_compute; reflexivity))).
Defined.

(** The test messages: [size] copies of an ASCII character encode to [size]
    bytes. *)
Lemma encode_repeat_ascii ch (n : nat) :
  0 <= ch < 128 ->
  Utf8.encode (repeat ch n) = Some (repeat (Utf8.byte_of_Z ch) n).
Proof.
  intros Hch. induction n as [|n IH]; cbn [repeat Utf8.encode].
  - reflexivity.
  - rewrite IH. unfold Utf8.encode_point.
    destruct (Z.ltb_spec ch 0); [lia|].
    destruct (Z.ltb_spec ch 128); [|lia]. reflexivity.
Qed.

Lemma message_bytes_repeated ch size :
  0 <= ch < 128 ->
  TCPClient.message_bytes (TCPClient.repeated ch size)
  = Some (repeat (Utf8.byte_of_Z ch) (Z.to_nat size)).
Proof. intros H. cbn. now apply encode_repeat_ascii. Qed.

End Utf8Facts.

(** ** Whole runs of the client *)

Section ClientRuns.
Import TCPClient.

Lemma keeps_ret {A : Type} (P : client -> Prop) (a : A) : keeps P (ret a).
Proof. intros c H. exact H. Qed.

Lemma keeps_bind {A B : Type} (P : client -> Prop) (x : M A) (f : A -> M B) :
  keeps P x -> (forall a, keeps P (f a)) -> keeps P (bind x f).
Proof.
  intros Hx Hf c Hc. unfold bind.
  specialize (Hx c Hc). destruct (x c) as [a c']. now apply Hf.
Qed.

Lemma keeps_when (P : client -> Prop) b (x : M unit) :
  keeps P x -> keeps P (when b x).
Proof. destruct b; [auto|intros _; apply keeps_ret]. Qed.

(** A predicate kept by the primitive steps is kept by the loops and by
    the runs built from them. *)
Section Loops.
Variable w : world.
Variable P : client -> Prop.
Hypothesis Htime : keeps P (time_time w).
Hypothesis Hprint : forall e, is_print e = true -> keeps P (emit e).
Hypothesis Hsleep : forall d, (0 < d)%Q -> keeps P (emit (Sleep d)).
Hypothesis Hstart : forall t, keeps P (update (set_start_time t)).
Hypothesis Hend : forall t, keeps P (update (set_end_time t)).
Hypothesis Hsend : forall msg, keeps P (send_message w msg).

Lemma keeps_bulk_loop msg n k : forall i, keeps P (bulk_loop w msg n i k).
Proof.
  induction k as [|k IH]; intros i; cbn [bulk_loop].
  - apply keeps_ret.
  - apply keeps_bind; [apply Hsend|]. intros r.
    apply keeps_bind; [|intros _; apply IH].
    destruct (fst r).
    + apply keeps_when, Hprint. reflexivity.
    + apply Hprint. reflexivity.
Qed.

Lemma keeps_send_bulk_messages n size :
  keeps P (send_bulk_messages w n size).
Proof.
  unfold send_bulk_messages.
  apply keeps_bind; [apply Hprint; reflexivity|]. intros _.
  apply keeps_bind; [apply Htime|]. intros t.
  apply keeps_bind; [apply Hstart|]. intros _.
  apply keeps_bind; [apply keeps_bulk_loop|]. intros _.
  apply keeps_bind; [apply Htime|]. intros t'.
  apply keeps_bind; [apply Hend|]. intros _.
  apply Hprint. reflexivity.
Qed.

Lemma keeps_load_pass msg r delay started count :
  keeps P (load_pass w msg r delay started count).
Proof.
  unfold load_pass.
  apply keeps_bind; [apply Htime|]. intros t0.
  apply keeps_bind; [apply Hsend|]. intros res.
  apply keeps_bind.
  - destruct (fst res && ((count + 1) mod r =? 0)).
    + apply keeps_bind; [apply Htime|]. intros t.
      apply Hprint. reflexivity.
    + apply keeps_ret.
  - intros _. apply keeps_bind; [apply Htime|]. intros t.
    destruct (Qlt_le_dec (t - t0) delay) as [Hlt|Hge].
    + apply Hsleep. lra.
    + apply keeps_ret.
Qed.

Lemma keeps_load_loop msg r delay started end_t fuel : forall count,
  keeps P (load_loop fuel w msg r delay started end_t count).
Proof.
  induction fuel as [|fuel IH]; intros count; cbn [load_loop].
  - apply keeps_ret.
  - apply keeps_bind; [apply Htime|]. intros t.
    destruct (Qlt_le_dec t end_t).
    + apply keeps_bind; [apply keeps_load_pass|]. intros _. apply IH.
    + apply keeps_ret.
Qed.

Lemma keeps_send_variable_load fuel d r size :
  keeps P (send_variable_load fuel w d r size).
Proof.
  unfold send_variable_load.
  apply keeps_bind; [apply Hprint; reflexivity|]. intros _.
  apply keeps_bind; [apply Htime|]. intros t0.
  apply keeps_bind; [apply Hstart|]. intros _.
  destruct (r =? 0); [apply keeps_ret|].
  apply keeps_bind; [apply Htime|]. intros t.
  apply keeps_bind; [apply keeps_load_loop|]. intros done.
  destruct done; [|apply keeps_ret].
  apply keeps_bind; [apply Htime|]. intros t'.
  apply keeps_bind; [apply Hend|]. intros _.
  apply keeps_bind; [apply Hprint; reflexivity|]. intros _.
  apply keeps_ret.
Qed.

Lemma keeps_main_tests fuel : keeps P (main_tests fuel w).
Proof.
  unfold main_tests.
  apply keeps_bind; [apply keeps_send_bulk_messages|]. intros _.
  apply keeps_bind; [apply Hsleep; reflexivity|]. intros _.
  apply keeps_send_variable_load.
Qed.

End Loops.

(** *** The bulk run *)

Lemma bulk_loop_calls w msg n k : forall i c,
  calls (snd (bulk_loop w msg n i k c)) = (calls c + k)%nat.
Proof.
  induction k as [|k IH]; intros i c; cbn [bulk_loop].
  - cbn. lia.
  - unfold bind at 1.
    pose proof (proj1 (send_message_calls_sleeps w msg c)) as Hc.
    destruct (send_message w msg c) as [r c1]. cbn [snd] in Hc.
    unfold bind at 1.
    assert (Hp : forall x : M unit,
               (forall c0, calls (snd (x c0)) = calls c0) ->
               calls (snd (let '(_, c') := x c1 in
                           bulk_loop w msg n (i + 1) k c'))
               = (calls c + S k)%nat).
    { intros x Hx. specialize (Hx c1). destruct (x c1) as [u c2].
      cbn [snd] in Hx. rewrite IH, Hx, Hc. lia. }
    apply Hp. intros c0.
    destruct (fst r); [destruct ((i + 1) mod 10 =? 0)|]; reflexivity.
Qed.

(** The difference between the attempts counted and the calls made. *)
Lemma keeps_attempts w (k : Z) fuel :
  keeps (fun c => failed_messages (data c) + total_messages_sent (data c)
                  - Z.of_nat (calls c) = k)
        (main_tests fuel w) /\
  forall n size,
    keeps (fun c => failed_messages (data c) + total_messages_sent (data c)
                    - Z.of_nat (calls c) = k)
          (send_bulk_messages w n size).
Proof.
  assert (Hsend : forall msg,
             keeps (fun c => failed_messages (data c)
                             + total_messages_sent (data c)
                             - Z.of_nat (calls c) = k)
                   (send_message w msg)).
  { intros msg c Hc. rewrite send_message_eq.
    destruct (message_bytes msg) as [b|];
      [destruct (sock w (calls c)) as [| |ack]|];
      cbn [snd data calls record_failure record_success failed_messages
           total_messages_sent]; lia. }
  split; [apply keeps_main_tests|intros n size;
                                  apply keeps_send_bulk_messages];
    try exact Hsend; intros; intros c Hc; exact Hc.
Qed.

(** X2: a bulk run makes exactly [num_messages] calls of [send_message]
    (none when the number is not positive), whatever the socket does, so
    the messages it counts as sent and as failed add up to [num_messages];
    it records the reading taken before the first call as [start_time] and
    the reading taken after the last as [end_time]. *)
Theorem X2_bulk_run_attempts (w : world) (num_messages message_size : Z)
    (c : client) :
  let c' := snd (send_bulk_messages w num_messages message_size c) in
  calls c' = (calls c + Z.to_nat num_messages)%nat /\
  (failed_messages (data c') - failed_messages (data c))
  + (total_messages_sent (data c') - total_messages_sent (data c))
  = Z.max 0 num_messages /\
  start_time (data c') = Some (clock w (ticks c)) /\
  end_time (data c') = Some (clock w (pred (ticks c'))).
Proof.
  intros c'.
  assert (Hcalls : calls c' = (calls c + Z.to_nat num_messages)%nat).
  { subst c'. unfold send_bulk_messages, bind.
    cbn [emit time_time update].
    pose proof (bulk_loop_calls w (repeated 88 message_size) num_messages
                  (Z.to_nat num_messages) 0
                  (mkClient (set_start_time (clock w (ticks c)) (data c))
                            (S (ticks c)) (calls c)
                            (events c ++ [PrintBulkStart num_messages
                                                         message_size])))
      as H.
    cbn [ticks data calls events] in *.
    destruct (bulk_loop _ _ _ _ _ _) as [u c1]. cbn [snd calls] in *.
    exact H. }
  split; [exact Hcalls|]. split.
  - pose proof (proj2 (keeps_attempts w
                         (failed_messages (data c)
                          + total_messages_sent (data c)
                          - Z.of_nat (calls c)) 0%nat)
                      num_messages message_size c eq_refl) as H.
    cbv beta in H. fold c' in H. rewrite Hcalls in H. lia.
  - subst c'. unfold send_bulk_messages, bind.
    cbn [emit time_time update ticks data calls events].
    pose proof (keeps_bulk_loop w
                  (fun c0 => start_time (data c0)
                             = Some (clock w (ticks c)))) as Hk.
    match goal with
    | |- context [bulk_loop ?a ?b ?n ?i ?k ?c0] =>
      specialize (Hk ltac:(intros e _ c1 H1; exact H1)
                     ltac:(intros msg c1 H1; rewrite send_message_eq;
                           destruct (message_bytes msg);
                           [destruct (sock w (calls c1))|]; exact H1)
                     b n k i c0 eq_refl);
      destruct (bulk_loop a b n i k c0) as [u c1]
    end.
    cbn [snd] in Hk. cbn [snd data ticks set_end_time start_time end_time
                          pred]. split; [exact Hk|reflexivity].
Qed.

Lemma X2_bulk_run_attempts_witness :
  calls (snd (send_bulk_messages sample_world 10 4 fresh)) = 10%nat /\
  failed_messages (data (snd (send_bulk_messages sample_world 10 4 fresh)))
  = 2 /\
  total_messages_sent (data (snd (send_bulk_messages sample_world 10 4 fresh)))
  = 8.
Proof.
  destruct (X2_bulk_run_attempts sample_world 10 4 fresh) as (H1 & H2 & _).
  split; [exact H1|]. split; vm_compute; reflexivity.
Defined.

(** One iteration of the bulk loop: a call of [send_message], then at most
    one console line. *)
Lemma bulk_loop_S w msg n i k c :
  exists evs,
    bulk_loop w msg n i (S k) c
    = bulk_loop w msg n (i + 1) k
        (mkClient (data (snd (send_message w msg c)))
                  (ticks (snd (send_message w msg c)))
                  (calls (snd (send_message w msg c)))
                  (events (snd (send_message w msg c)) ++ evs)).
Proof.
  cbn [bulk_loop]. unfold bind at 1.
  destruct (send_message w msg c) as [r c1]. cbn [snd].
  unfold bind at 1.
  destruct (fst r); [destruct ((i + 1) mod 10 =? 0)|].
  - eexists. reflexivity.
  - exists []. cbn [when ret]. rewrite app_nil_r. destruct c1; reflexivity.
  - eexists. reflexivity.
Qed.

Lemma len_repeat {A : Type} (x : A) size :
  Py.len (repeat x (Z.to_nat size)) = Z.max 0 size.
Proof. unfold Py.len. rewrite repeat_length. lia. Qed.

Lemma bulk_loop_all_return w size n k :
  all_return w ->
  forall i c,
    let c' := snd (bulk_loop w (repeated 88 size) n i k c) in
    total_messages_sent (data c')
    = total_messages_sent (data c) + Z.of_nat k /\
    total_bytes_sent (data c')
    = total_bytes_sent (data c) + Z.of_nat k * Z.max 0 size /\
    failed_messages (data c') = failed_messages (data c) /\
    Py.len (latencies (data c'))
    = Py.len (latencies (data c)) + Z.of_nat k.
Proof.
  intros Hall. induction k as [|k IH]; intros i c.
  - cbn. unfold Py.len. repeat split; lia.
  - destruct (bulk_loop_S w (repeated 88 size) n i k c) as [evs ->].
    match goal with
    | |- context [bulk_loop _ _ _ _ _ ?c1] => set (c0 := c1)
    end.
    destruct (IH (i + 1) c0) as (H1 & H2 & H3 & H4).
    cbv zeta. rewrite H1, H2, H3, H4. subst c0.
    cbn [data]. rewrite send_message_eq.
    rewrite message_bytes_repeated by lia.
    destruct (Hall (calls c)) as [ack ->].
    cbn [snd data record_success total_messages_sent total_bytes_sent
         failed_messages latencies].
    rewrite len_repeat. unfold Py.len. rewrite length_app. cbn [length].
    repeat split; lia.
Qed.

(** X3: when every socket cycle gets a reply, a bulk run of [N] messages of
    [size] characters adds [N] to [total_messages_sent], [N * size] to
    [total_bytes_sent], [N] latency samples and nothing to
    [failed_messages] ([N] and [size] counted as 0 when negative). *)
Theorem X3_bulk_run_all_acknowledged (w : world)
    (num_messages message_size : Z) (c : client) :
  all_return w ->
  let c' := snd (send_bulk_messages w num_messages message_size c) in
  total_messages_sent (data c')
  = total_messages_sent (data c) + Z.max 0 num_messages /\
  total_bytes_sent (data c')
  = total_bytes_sent (data c)
    + Z.max 0 num_messages * Z.max 0 message_size /\
  failed_messages (data c') = failed_messages (data c) /\
  Py.len (latencies (data c'))
  = Py.len (latencies (data c)) + Z.max 0 num_messages.
Proof.
  intros Hall c'. subst c'. unfold send_bulk_messages, bind.
  cbn [emit time_time update ticks data calls events].
  match goal with
  | |- context [bulk_loop ?a ?b ?n ?i ?k ?c0] =>
    pose proof (bulk_loop_all_return a message_size n k Hall i c0) as H;
    destruct (bulk_loop a b n i k c0) as [u c1]
  end.
  cbv zeta in H. cbn [snd data set_start_time set_end_time
                      total_messages_sent total_bytes_sent failed_messages
                      latencies] in *.
  replace (Z.of_nat (Z.to_nat num_messages)) with (Z.max 0 num_messages)
    in H by lia.
  exact H.
Qed.

Lemma X3_bulk_run_all_acknowledged_witness :
  all_return (mkWorld (fun k => inject_Z (Z.of_nat k))
                      (fun _ => RecvReturns [])) /\
  total_bytes_sent
    (data (snd (send_bulk_messages
                  (mkWorld (fun k => inject_Z (Z.of_nat k))
                           (fun _ => RecvReturns []))
                  100 1024 fresh)))
  = 0 + Z.max 0 100 * Z.max 0 1024.
Proof.
  assert (H : all_return (mkWorld (fun k => inject_Z (Z.of_nat k))
                                  (fun _ => RecvReturns [])))
    by (intros k; exists []; reflexivity).
  split; [exact H|].
  exact (proj1 (proj2 (X3_bulk_run_all_acknowledged _ 100 1024 fresh H))).
Defined.



(** *** Sleeping *)

Lemma monotone_clock_le w :
  monotone_clock w ->
  forall i j, (i <= j)%nat -> (clock w i <= clock w j)%Q.
Proof.
  intros Hm i j Hij. induction Hij as [|j Hij IH].
  - apply Qle_refl.
  - eapply Qle_trans; [exact IH|apply Hm].
Qed.

Lemma load_pass_asked w msg r delay started count c :
  exists asked,
    sleeps (events (snd (load_pass w msg r delay started count c)))
    = sleeps (events c) ++ asked /\
    Forall (fun d => (0 < d)%Q) asked /\
    (monotone_clock w -> Forall (fun d => (d <= delay)%Q) asked).
Proof.
  destruct (load_pass_sleep w msg r delay started count c) as [_ Hs].
  pose proof (load_pass_ticks w msg r delay started count c) as Ht.
  cbv zeta in Hs.
  set (c' := snd (load_pass w msg r delay started count c)) in *.
  destruct (Qlt_le_dec (clock w (pred (ticks c')) - clock w (ticks c)) delay)
    as [Hlt|Hge].
  - eexists. split; [exact Hs|]. split.
    + constructor; [lra|constructor].
    + intros Hm. constructor; [|constructor].
      pose proof (monotone_clock_le w Hm (ticks c) (pred (ticks c'))
                    ltac:(lia)).
      lra.
  - exists []. split; [exact Hs|]. split; [constructor|intros _; constructor].
Qed.

Lemma load_loop_asked w msg r delay started end_t fuel : forall count c,
  exists asked,
    sleeps (events (snd (load_loop fuel w msg r delay started end_t count c)))
    = sleeps (events c) ++ asked /\
    Forall (fun d => (0 < d)%Q) asked /\
    (monotone_clock w -> Forall (fun d => (d <= delay)%Q) asked).
Proof.
  induction fuel as [|fuel IH]; intros count c.
  - exists []. cbn. rewrite app_nil_r.
    split; [reflexivity|]. split; [constructor|intros _; constructor].
  - cbn [load_loop]. unfold bind at 1. cbn [time_time].
    destruct (Qlt_le_dec (clock w (ticks c)) end_t) as [Hlt|Hge].
    + unfold bind at 1.
      destruct (load_pass_asked w msg r delay started count
                  (mkClient (data c) (S (ticks c)) (calls c) (events c)))
        as (a1 & H1 & P1 & M1).
      destruct (load_pass w msg r delay started count
                  (mkClient (data c) (S (ticks c)) (calls c) (events c)))
        as [u c1].
      cbn [snd events] in H1.
      destruct (IH (count + 1) c1) as (a2 & H2 & P2 & M2).
      exists (a1 ++ a2). rewrite H2, H1, app_assoc.
      split; [reflexivity|]. split.
      * apply Forall_app. now split.
      * intros Hm. apply Forall_app. split; [now apply M1|now apply M2].
    + exists []. cbn. rewrite app_nil_r.
      split; [reflexivity|]. split; [constructor|intros _; constructor].
Qed.

(** X5: whatever the clock and the socket do, a rate-limited run never
    calls [time.sleep] with a zero or negative duration; and when the clock
    does not go back, it never asks for more than the inter-message delay
    [1 / R]. *)
Theorem X5_sleep_requests (w : world) (fuel : nat) (duration_seconds : Q)
    (messages_per_second message_size : Z) (c : client) :
  exists asked,
    sleeps (events (snd (send_variable_load fuel w duration_seconds
                           messages_per_second message_size c)))
    = sleeps (events c) ++ asked /\
    Forall (fun d => (0 < d)%Q) asked /\
    (monotone_clock w ->
     Forall (fun d => (d <= 1 / inject_Z messages_per_second)%Q) asked).
Proof.
  unfold send_variable_load, bind.
  cbn [emit time_time update ticks data calls events].
  destruct (messages_per_second =? 0).
  - exists []. cbn [ret snd events]. rewrite sleeps_app. cbn.
    split; [reflexivity|]. split; [constructor|intros _; constructor].
  - cbn [time_time ticks data calls events].
    match goal with
    | |- context [load_loop ?a ?b ?m ?r ?d ?s ?e ?k ?c0] =>
      destruct (load_loop_asked b m r d s e a k c0) as (asked & H & Hp & Hm);
      destruct (load_loop a b m r d s e k c0) as [done c1]
    end.
    cbn [snd events] in H. rewrite sleeps_app in H. cbn in H.
    rewrite app_nil_r in H.
    exists asked. split; [|split; assumption].
    destruct done; cbn [snd events ret]; [|exact H].
    rewrite sleeps_app, H. cbn. now rewrite app_nil_r.
Qed.

(** *** Timing of the samples *)

Lemma StronglySorted_snoc (l : list Q) x :
  StronglySorted Qle l -> Forall (fun t => (t <= x)%Q) l ->
  StronglySorted Qle (l ++ [x]).
Proof.
  induction 1 as [|y l Hs IH Hy]; intros Hx; cbn [app].
  - repeat constructor.
  - inversion Hx as [|? ? Hyx Hlx]; subst. constructor.
    + now apply IH.
    + apply Forall_app. split; [assumption|]. now constructor.
Qed.

Lemma well_timed_raise w c (f : metrics -> metrics) evs n :
  monotone_clock w -> well_timed w c ->
  send_times (f (data c)) = send_times (data c) ->
  latencies (f (data c)) = latencies (data c) ->
  well_timed w (mkClient (f (data c)) (n + ticks c) (calls c) evs).
Proof.
  intros Hm (H1 & H2 & H3 & H4) Hst Hl. unfold well_timed.
  cbn [data ticks]. rewrite Hst, Hl. repeat split; try assumption.
  eapply Forall_impl; [|exact H4]. intros t Ht.
  eapply Qle_trans; [exact Ht|]. apply monotone_clock_le; [assumption|lia].
Qed.

Lemma well_timed_keeps w :
  monotone_clock w ->
  keeps (well_timed w) (time_time w) /\
  (forall e, keeps (well_timed w) (emit e)) /\
  (forall t, keeps (well_timed w) (update (set_start_time t))) /\
  (forall t, keeps (well_timed w) (update (set_end_time t))) /\
  (forall msg, keeps (well_timed w) (send_message w msg)).
Proof.
  intros Hm. split; [|split; [|split; [|split]]].
  - intros c Hc.
    apply (well_timed_raise w c (fun m => m) (events c) 1 Hm Hc); reflexivity.
  - intros e c Hc. exact Hc.
  - intros t c Hc. exact Hc.
  - intros t c Hc. exact Hc.
  - intros msg c Hc. rewrite send_message_eq.
    assert (Hfail : forall evs,
               well_timed w (mkClient (record_failure (data c)) (S (ticks c))
                                      (S (calls c)) evs)).
    { intros evs.
      destruct (well_timed_raise w c record_failure evs 1 Hm Hc eq_refl
                                 eq_refl) as (H1 & H2 & H3 & H4).
      repeat split; assumption. }
    destruct (message_bytes msg) as [b|]; [|apply Hfail].
    destruct (sock w (calls c)) as [| |ack]; try apply Hfail.
    destruct Hc as (H1 & H2 & H3 & H4).
    cbv zeta. unfold well_timed.
    cbn [snd data ticks record_success send_times latencies].
    pose proof (Hm (ticks c)) as Hstep.
    pose proof (Hm (S (ticks c))) as Hstep2.
    repeat split.
    + unfold Py.len in *. rewrite !length_app. cbn [length]. lia.
    + apply Forall_app. split; [assumption|].
      constructor; [lra|constructor].
    + now apply StronglySorted_snoc.
    + apply Forall_app. split.
      * eapply Forall_impl; [|exact H4]. intros t Ht. cbv beta in Ht. lra.
      * constructor; [lra|constructor].
Qed.

(** X6: when the clock does not go back, every run keeps the samples well
    timed: as many send times as latencies, no negative latency, and send
    times in ascending order. *)
Theorem X6_samples_well_timed (w : world) (c : client) :
  monotone_clock w -> well_timed w c ->
  (forall num_messages message_size,
      well_timed w (snd (send_bulk_messages w num_messages message_size c))) /\
  (forall fuel duration_seconds messages_per_second message_size,
      well_timed w (snd (send_variable_load fuel w duration_seconds
                                            messages_per_second
                                            message_size c))) /\
  (forall fuel, well_timed w (snd (main_tests fuel w c))).
Proof.
  intros Hm Hc.
  destruct (well_timed_keeps w Hm) as (Ht & He & Hs & Hn & Hsend).
  split; [|split]; intros.
  - apply keeps_send_bulk_messages; auto.
  - apply keeps_send_variable_load; auto.
  - apply keeps_main_tests; auto.
Qed.

Lemma sample_world_monotone : monotone_clock sample_world.
Proof.
  intros k. cbn [clock sample_world]. rewrite <- Zle_Qle. lia.
Qed.

Lemma well_timed_fresh w : well_timed w fresh.
Proof. unfold well_timed. cbn. repeat split; constructor. Qed.

Lemma X6_samples_well_timed_witness :
  monotone_clock sample_world /\
  well_timed sample_world fresh /\
  well_timed sample_world (snd (main_tests 20 sample_world fresh)).
Proof.
  split; [exact sample_world_monotone|].
  split; [apply well_timed_fresh|].
  exact (proj2 (proj2 (X6_samples_well_timed sample_world fresh
                         sample_world_monotone
                         (well_timed_fresh sample_world))) 20%nat).
Defined.

(** *** The replies are not read *)

Lemma agree_ret {A : Type} (a : A) : agree (ret a) (ret a).
Proof. intros c1 c2 H. split; [reflexivity|exact H]. Qed.

Lemma agree_bind {A B : Type} (x y : M A) (f g : A -> M B) :
  agree x y -> (forall a, agree (f a) (g a)) ->
  agree (bind x f) (bind y g).
Proof.
  intros Hx Hf c1 c2 Hc. unfold bind.
  destruct (Hx c1 c2 Hc) as [Ha Hs].
  destruct (x c1) as [a1 c1'], (y c2) as [a2 c2']. cbn [fst snd] in *.
  subst a2. now apply Hf.
Qed.

Lemma agree_time_time w : agree (time_time w) (time_time (blank_replies w)).
Proof.
  intros c1 c2 (Hd & Ht & Hc & He). unfold time_time, same_but_replies.
  cbn [fst snd data ticks calls events blank_replies clock].
  rewrite Ht. repeat split; congruence.
Qed.

Lemma agree_emit e : agree (emit e) (emit e).
Proof.
  intros c1 c2 (Hd & Ht & Hc & He). unfold emit, same_but_replies.
  cbn [fst snd data ticks calls events]. rewrite !map_app, He.
  repeat split; congruence.
Qed.

Lemma agree_update f : agree (update f) (update f).
Proof.
  intros c1 c2 (Hd & Ht & Hc & He). unfold update, same_but_replies.
  cbn [fst snd data ticks calls events]. repeat split; congruence.
Qed.

Lemma agree_when b (x y : M unit) : agree x y -> agree (when b x) (when b y).
Proof. destruct b; [auto|intros _; apply agree_ret]. Qed.

Lemma agree_send_message w msg :
  agree (send_message w msg) (send_message (blank_replies w) msg).
Proof.
  intros c1 c2 (Hd & Ht & Hc & He). rewrite !send_message_eq.
  cbn [blank_replies sock clock]. rewrite <- Hc, <- Ht, <- Hd.
  unfold same_but_replies.
  destruct (message_bytes msg) as [b|].
  - destruct (sock w (calls c1)) as [| |ack];
      cbn [blank_reply fst snd data ticks calls events];
      rewrite !map_app, He; cbn [map blank_event blank_reply];
      repeat split; reflexivity.
  - cbn [fst snd data ticks calls events]. rewrite !map_app, He.
    repeat split; reflexivity.
Qed.

Lemma agree_bulk_loop w msg n k : forall i,
  agree (bulk_loop w msg n i k) (bulk_loop (blank_replies w) msg n i k).
Proof.
  induction k as [|k IH]; intros i; cbn [bulk_loop].
  - apply agree_ret.
  - apply agree_bind; [apply agree_send_message|]. intros r.
    apply agree_bind; [|intros _; apply IH].
    destruct (fst r); [apply agree_when|]; apply agree_emit.
Qed.

Lemma agree_send_bulk_messages w n size :
  agree (send_bulk_messages w n size)
        (send_bulk_messages (blank_replies w) n size).
Proof.
  unfold send_bulk_messages.
  repeat (first [ apply agree_bind; [|intros ?]
                | apply agree_emit
                | apply agree_time_time
                | apply agree_update
                | apply agree_bulk_loop ]).
Qed.

Lemma agree_load_pass w msg r delay started count :
  agree (load_pass w msg r delay started count)
        (load_pass (blank_replies w) msg r delay started count).
Proof.
  unfold load_pass.
  apply agree_bind; [apply agree_time_time|]. intros t0.
  apply agree_bind; [apply agree_send_message|]. intros res.
  apply agree_bind.
  - destruct (fst res && ((count + 1) mod r =? 0)).
    + apply agree_bind; [apply agree_time_time|]. intros t.
      apply agree_emit.
    + apply agree_ret.
  - intros _. apply agree_bind; [apply agree_time_time|]. intros t.
    destruct (Qlt_le_dec (t - t0) delay);
      [apply agree_emit|apply agree_ret].
Qed.

Lemma agree_load_loop w msg r delay started end_t fuel : forall count,
  agree (load_loop fuel w msg r delay started end_t count)
        (load_loop fuel (blank_replies w) msg r delay started end_t count).
Proof.
  induction fuel as [|fuel IH]; intros count; cbn [load_loop].
  - apply agree_ret.
  - apply agree_bind; [apply agree_time_time|]. intros t.
    destruct (Qlt_le_dec t end_t).
    + apply agree_bind; [apply agree_load_pass|]. intros _. apply IH.
    + apply agree_ret.
Qed.

Lemma agree_send_variable_load fuel w d r size :
  agree (send_variable_load fuel w d r size)
        (send_variable_load fuel (blank_replies w) d r size).
Proof.
  unfold send_variable_load.
  apply agree_bind; [apply agree_emit|]. intros _.
  apply agree_bind; [apply agree_time_time|]. intros t0.
  apply agree_bind; [apply agree_update|]. intros _.
  destruct (r =? 0); [apply agree_ret|].
  apply agree_bind; [apply agree_time_time|]. intros t.
  apply agree_bind; [apply agree_load_loop|]. intros done.
  destruct done; [|apply agree_ret].
  repeat (first [ apply agree_bind; [|intros ?]
                | apply agree_emit
                | apply agree_time_time
                | apply agree_update
                | apply agree_ret ]).
Qed.

Lemma same_but_replies_refl c : same_but_replies c c.
Proof. repeat split. Qed.

(** X7: the client never reads the reply.  With every reply replaced by
    the empty one (what [recv] returns once the server has closed the
    connection) a bulk run, a rate-limited run and the two tests of [main]
    end with the same outcome, the same metrics, the same number of clock
    readings and socket cycles, and the same console lines and sleeps: an
    empty reply counts as an acknowledgment. *)
Theorem X7_replies_not_read (w : world) (c : client) :
  (forall num_messages message_size,
      same_but_replies
        (snd (send_bulk_messages w num_messages message_size c))
        (snd (send_bulk_messages (blank_replies w) num_messages
                                 message_size c))) /\
  (forall fuel duration_seconds messages_per_second message_size,
      fst (send_variable_load fuel w duration_seconds messages_per_second
                              message_size c)
      = fst (send_variable_load fuel (blank_replies w) duration_seconds
                                messages_per_second message_size c) /\
      same_but_replies
        (snd (send_variable_load fuel w duration_seconds messages_per_second
                                 message_size c))
        (snd (send_variable_load fuel (blank_replies w) duration_seconds
                                 messages_per_second message_size c))) /\
  (forall fuel,
      fst (main_tests fuel w c) = fst (main_tests fuel (blank_replies w) c) /\
      data (snd (main_tests fuel w c))
      = data (snd (main_tests fuel (blank_replies w) c)) /\
      map blank_event (events (snd (main_tests fuel w c)))
      = map blank_event (events (snd (main_tests fuel (blank_replies w) c)))).
Proof.
  split; [|split].
  - intros n size.
    apply (agree_send_bulk_messages w n size c c (same_but_replies_refl c)).
  - intros fuel d r size.
    apply (agree_send_variable_load fuel w d r size c c
                                    (same_but_replies_refl c)).
  - intros fuel.
    assert (Ha : agree (main_tests fuel w)
                       (main_tests fuel (blank_replies w))).
    { unfold main_tests.
      apply agree_bind; [apply agree_send_bulk_messages|]. intros _.
      apply agree_bind; [apply agree_emit|]. intros _.
      apply agree_send_variable_load. }
    destruct (Ha c c (same_but_replies_refl c)) as (Hf & Hd & _ & _ & He).
    auto.
Qed.

(** *** The final report of [main] *)

Lemma load_loop_calls_le w msg r delay started end_t fuel : forall count c,
  (calls (snd (load_loop fuel w msg r delay started end_t count c))
   <= calls c + fuel)%nat.
Proof.
  induction fuel as [|fuel IH]; intros count c; cbn [load_loop].
  - cbn. lia.
  - unfold bind at 1. cbn [time_time].
    destruct (Qlt_le_dec (clock w (ticks c)) end_t); [|cbn; lia].
    unfold bind at 1.
    destruct (load_pass_sleep w msg r delay started count
                (mkClient (data c) (S (ticks c)) (calls c) (events c)))
      as [Hc _].
    destruct (load_pass w msg r delay started count
                (mkClient (data c) (S (ticks c)) (calls c) (events c)))
      as [u c1].
    cbn [snd calls] in Hc. specialize (IH (count + 1) c1). lia.
Qed.

Lemma send_variable_load_calls_le fuel w d r size c :
  (calls (snd (send_variable_load fuel w d r size c)) <= calls c + fuel)%nat.
Proof.
  unfold send_variable_load, bind.
  cbn [emit time_time update ticks data calls events].
  destruct (r =? 0); [cbn; lia|].
  cbn [time_time ticks data calls events].
  match goal with
  | |- context [load_loop ?a ?b ?m ?rr ?dd ?s ?e ?k ?c0] =>
    pose proof (load_loop_calls_le b m rr dd s e a k c0) as H;
    destruct (load_loop a b m rr dd s e k c0) as [done c1]
  end.
  cbn [snd calls] in H. destruct done; cbn [snd calls ret]; exact H.
Qed.

(** X8: after the two tests of [main], whatever the socket and the clock
    have done, [display_metrics] raises nothing: the final report is
    produced, with the counters of the run.  (The bound on the fuel keeps
    the number of samples below [2^46].) *)
Theorem X8_final_report_produced (w : world) (fuel : nat) :
  Z.of_nat fuel < 2 ^ 45 ->
  let c' := snd (main_tests fuel w fresh) in
  exists r,
    display_metrics (data c') = Py.Ok r /\
    messages r = total_messages_sent (data c') /\
    bytes r = total_bytes_sent (data c') /\
    failed r = failed_messages (data c').
Proof.
  intros Hfuel c'.
  assert (Hlen : Py.len (latencies (data c')) <= Z.of_nat (calls c')).
  { apply (keeps_main_tests w
             (fun c => Py.len (latencies (data c)) <= Z.of_nat (calls c)));
      try (intros; intros c Hc; exact Hc).
    - intros msg c Hc. rewrite send_message_eq.
      destruct (message_bytes msg) as [b|];
        [destruct (sock w (calls c)) as [| |ack]|];
        cbn [snd data calls record_failure record_success latencies];
        unfold Py.len in *; rewrite ?length_app; cbn [length]; lia.
    - cbn. lia. }
  assert (Hcalls : (calls c' <= 100 + fuel)%nat).
  { subst c'. unfold main_tests. unfold bind at 1.
    pose proof (bulk_loop_calls w) as Hb.
    assert (H1 : calls (snd (send_bulk_messages w 100 1024 fresh)) = 100%nat).
    { unfold send_bulk_messages, bind.
      cbn [emit time_time update ticks data calls events].
      match goal with
      | |- context [bulk_loop ?a ?b ?n ?i ?k ?c0] =>
        specialize (Hb b n k i c0);
        destruct (bulk_loop a b n i k c0) as [u c1]
      end.
      cbn [snd calls] in *. rewrite Hb. reflexivity. }
    destruct (send_bulk_messages w 100 1024 fresh) as [u c1].
    cbn [snd] in H1. unfold bind at 1. cbn [emit].
    match goal with
    | |- context [send_variable_load ?f ?ww ?d ?r ?s ?c0] =>
      pose proof (send_variable_load_calls_le f ww d r s c0) as H2
    end.
    cbn [calls] in H2. lia. }
  assert (Hend : exists e, end_time (data c') = Some e).
  { subst c'. unfold main_tests. unfold bind at 1.
    assert (H1 : exists e,
               end_time (data (snd (send_bulk_messages w 100 1024 fresh)))
               = Some e).
    { unfold send_bulk_messages, bind.
      cbn [emit time_time update ticks data calls events].
      destruct (bulk_loop _ _ _ _ _ _) as [u c1].
      cbn [snd data events set_end_time end_time]. eexists. reflexivity. }
    destruct (send_bulk_messages w 100 1024 fresh) as [u c1].
    cbn [snd] in H1. unfold bind at 1. cbn [emit].
    apply (keeps_send_variable_load w
             (fun c => exists e, end_time (data c) = Some e));
      try (intros; intros c Hc; exact Hc).
    - intros t c _. eexists. reflexivity.
    - intros msg c Hc. rewrite send_message_eq.
      destruct (message_bytes msg) as [b|];
        [destruct (sock w (calls c)) as [| |ack]|]; exact Hc.
    - exact H1. }
  destruct Hend as [e He].
  destruct (latency_statistics_total (latencies (data c')))
    as (lat & Hlat & _); [lia|].
  unfold display_metrics, throughput_statistics. rewrite Hlat, He.
  cbn [try].
  destruct (start_time (data c')) as [s0|].
  - destruct ((0 <? total_messages_sent (data c')) && Py.truthy (Some s0)).
    + destruct (Qlt_le_dec 0 (e - s0)); cbn [try]; eexists; repeat split.
    + cbn [try]. eexists. repeat split.
  - cbn [Py.truthy]. rewrite andb_false_r. cbn [try].
    eexists. repeat split.
Qed.

Lemma X8_final_report_produced_witness :
  Z.of_nat 20 < 2 ^ 45 /\
  exists r,
    display_metrics (data (snd (main_tests 20 sample_world fresh))) = Py.Ok r /\
    messages r = 73 /\ failed r = 29.
Proof.
  split; [reflexivity|].
  destruct (X8_final_report_produced sample_world 20 ltac:(reflexivity))
    as (r & Hr & Hm & _ & Hf).
  exists r. split; [exact Hr|].
  rewrite Hm, Hf. split; vm_compute; reflexivity.
Defined.

(** *** Runs one after the other *)

Lemma extends_keeps w c0 :
  keeps (extends c0) (time_time w) /\
  (forall e, keeps (extends c0) (emit e)) /\
  (forall t, keeps (extends c0) (update (set_start_time t))) /\
  (forall t, keeps (extends c0) (update (set_end_time t))) /\
  (forall msg, keeps (extends c0) (send_message w msg)).
Proof.
  split; [|split; [|split; [|split]]].
  - intros c Hc. exact Hc.
  - intros e c Hc. exact Hc.
  - intros t c Hc. exact Hc.
  - intros t c Hc. exact Hc.
  - intros msg c (more & Hl & Hs & Hf). rewrite send_message_eq.
    destruct (message_bytes msg) as [b|];
      [destruct (sock w (calls c)) as [| |ack]|];
      try (exists more; cbn [snd data record_failure latencies
                             total_messages_sent failed_messages];
           split; [assumption|split; [assumption|lia]]).
    cbv zeta. eexists (more ++ [_]).
    cbn [snd data record_success latencies total_messages_sent
         failed_messages].
    rewrite Hl, Hs, <- app_assoc. unfold Py.len. rewrite length_app.
    cbn [length]. split; [reflexivity|split; [lia|assumption]].
Qed.

Lemma extends_refl c : extends c c.
Proof.
  exists []. rewrite app_nil_r. unfold Py.len. cbn. repeat split; lia.
Qed.

(** X15: a run adds to what the client has recorded and never drops or
    alters it (the earlier latency samples remain a prefix, the counters
    only grow), but it starts the timing window afresh: [start_time] is
    overwritten with the first reading of the new run.  After the two tests
    of [main] the report therefore carries the samples and counters of both
    tests with the [start_time] of the second. *)
Theorem X15_runs_accumulate_but_restart_timing (w : world) (c : client) :
  (forall num_messages message_size,
      let c' := snd (send_bulk_messages w num_messages message_size c) in
      extends c c' /\ start_time (data c') = Some (clock w (ticks c))) /\
  (forall fuel duration_seconds messages_per_second message_size,
      let c' := snd (send_variable_load fuel w duration_seconds
                                        messages_per_second message_size c) in
      extends c c' /\ start_time (data c') = Some (clock w (ticks c))) /\
  (forall fuel,
      let c1 := snd (send_bulk_messages w 100 1024 c) in
      let c' := snd (main_tests fuel w c) in
      extends c1 c' /\ start_time (data c') = Some (clock w (ticks c1))).
Proof.
  assert (Hsame : forall X msg,
             keeps (fun c0 => start_time (data c0) = Some X)
                   (send_message w msg)).
  { intros X msg c0 H0. rewrite send_message_eq.
    destruct (message_bytes msg);
      [destruct (sock w (calls c0))|]; exact H0. }
  assert (Hbulk : forall c0 num_messages message_size,
             let c' := snd (send_bulk_messages w num_messages message_size c0)
             in extends c0 c'
                /\ start_time (data c') = Some (clock w (ticks c0))).
  { intros c0 n size c'.
    destruct (extends_keeps w c0) as (Ht & He & Hs & Hn & Hsend). split.
    - apply keeps_send_bulk_messages; auto. apply extends_refl.
    - subst c'. unfold send_bulk_messages, bind.
      cbn [emit time_time update ticks data calls events].
      match goal with
      | |- context [bulk_loop ?a ?b ?nn ?i ?k ?c2] =>
        pose proof (keeps_bulk_loop a
                      (fun c3 => start_time (data c3)
                                 = Some (clock w (ticks c0)))
                      ltac:(intros e _ c3 H3; exact H3)
                      (Hsame _) b nn k i c2 eq_refl) as Hk;
        destruct (bulk_loop a b nn i k c2) as [u c3]
      end.
      cbn [snd] in Hk. cbn [snd data set_end_time start_time]. exact Hk. }
  assert (Hload : forall c0 fuel duration_seconds messages_per_second
                         message_size,
             let c' := snd (send_variable_load fuel w duration_seconds
                              messages_per_second message_size c0)
             in extends c0 c'
                /\ start_time (data c') = Some (clock w (ticks c0))).
  { intros c0 fuel d r size c'.
    destruct (extends_keeps w c0) as (Ht & He & Hs & Hn & Hsend). split.
    - apply keeps_send_variable_load; auto. apply extends_refl.
    - subst c'. unfold send_variable_load, bind.
      cbn [emit time_time update ticks data calls events].
      destruct (r =? 0); [reflexivity|].
      cbn [time_time ticks data calls events].
      match goal with
      | |- context [load_loop ?f ?a ?b ?rr ?dd ?st ?e ?k ?c2] =>
        pose proof (keeps_load_loop a
                      (fun c3 => start_time (data c3)
                                 = Some (clock w (ticks c0)))
                      ltac:(intros c3 H3; exact H3)
                      ltac:(intros ev _ c3 H3; exact H3)
                      ltac:(intros dd0 _ c3 H3; exact H3)
                      (Hsame _) b rr dd st e f k c2 eq_refl) as Hk;
        destruct (load_loop f a b rr dd st e k c2) as [done c3]
      end.
      cbn [snd] in Hk. destruct done; cbn [snd data ret]; exact Hk. }
  split; [exact (Hbulk c)|]. split; [exact (Hload c)|].
  intros fuel c1 c'.
  assert (E : main_tests fuel w c
              = send_variable_load fuel w 10%Q 10 512
                  (mkClient (data c1) (ticks c1) (calls c1)
                            (events c1 ++ [Sleep 1%Q]))).
  { subst c1. unfold main_tests, bind, emit.
    destruct (send_bulk_messages w 100 1024 c) as [u c1]. reflexivity. }
  subst c'. rewrite E.
  destruct (Hload (mkClient (data c1) (ticks c1) (calls c1)
                            (events c1 ++ [Sleep 1%Q])) fuel 10%Q 10 512)
    as [(more & Hl & Hs & Hf) Hst].
  split; [|exact Hst]. exists more.
  split; [exact Hl|split; [exact Hs|exact Hf]].
Qed.

(** *** Latency against duration *)

Lemma sum_snoc l x : Py.sum (l ++ [x]) = (Py.sum l + x)%Q.
Proof. unfold Py.sum. rewrite fold_left_app. reflexivity. Qed.

(** X16: in a bulk run that starts with no sample recorded, under a clock
    that does not go back, the latencies add up to no more than the
    duration of the run, [end_time - start_time]: the cycles follow one
    another and never overlap. *)
Theorem X16_bulk_latencies_fit_in_duration (w : world)
    (num_messages message_size : Z) (c : client) :
  monotone_clock w -> latencies (data c) = [] ->
  let c' := snd (send_bulk_messages w num_messages message_size c) in
  exists s e,
    start_time (data c') = Some s /\ end_time (data c') = Some e /\
    (Py.sum (latencies (data c')) <= e - s)%Q.
Proof.
  intros Hm Hnil c'. subst c'. unfold send_bulk_messages, bind.
  cbn [emit time_time update ticks data calls events].
  set (s := clock w (ticks c)).
  match goal with
  | |- context [bulk_loop ?a ?b ?nn ?i ?k ?c2] =>
    assert (Hk : fits_since w s (snd (bulk_loop a b nn i k c2)) /\
                 start_time (data (snd (bulk_loop a b nn i k c2))) = Some s);
    [|destruct (bulk_loop a b nn i k c2) as [u c3]]
  end.
  { split.
    - apply keeps_bulk_loop.
      + intros e _ c3 H3. exact H3.
      + intros msg c3 H3. rewrite send_message_eq. unfold fits_since in *.
        pose proof (Hm (ticks c3)) as M1.
        pose proof (Hm (S (ticks c3))) as M2.
        destruct (message_bytes msg) as [b|];
          [destruct (sock w (calls c3)) as [| |ack]|];
          cbv zeta;
          cbn [snd data ticks record_failure record_success latencies];
          rewrite ?sum_snoc; lra.
      + unfold fits_since. cbn [data ticks set_start_time latencies].
        rewrite Hnil. unfold Py.sum. cbn [fold_left]. subst s.
        pose proof (Hm (ticks c)). lra.
    - apply keeps_bulk_loop.
      + intros e _ c3 H3. exact H3.
      + intros msg c3 H3. rewrite send_message_eq.
        destruct (message_bytes msg);
          [destruct (sock w (calls c3))|]; exact H3.
      + reflexivity. }
  destruct Hk as [Hfit Hst]. cbn [snd] in Hfit, Hst.
  exists s, (clock w (ticks c3)).
  cbn [snd data set_end_time start_time end_time latencies].
  repeat split; assumption.
Qed.

Lemma X16_bulk_latencies_fit_in_duration_witness :
  monotone_clock sample_world /\
  exists s e,
    start_time (data (snd (send_bulk_messages sample_world 10 4 fresh)))
    = Some s /\
    end_time (data (snd (send_bulk_messages sample_world 10 4 fresh)))
    = Some e /\
    (Py.sum (latencies (data (snd (send_bulk_messages sample_world 10 4
                                                      fresh))))
     <= e - s)%Q.
Proof.
  split; [exact sample_world_monotone|].
  exact (X16_bulk_latencies_fit_in_duration sample_world 10 4 fresh
           sample_world_monotone eq_refl).
Defined.

(** *** Counters and socket cycles *)

(** X17: after a bulk run, after a rate-limited run (whether or not its loop
    has reached its end) and after the two tests of [main], the number of
    latency samples equals [total_messages_sent], which is the number of
    cycles in which [send] and [recv] both returned, whatever [recv]
    returned; [failed_messages] and [total_messages_sent] add up to the
    number of calls of [send_message]; [total_bytes_sent] is the sum of the
    lengths of the payloads of those cycles. *)
Theorem X17_counters_follow_completed_cycles (w : world) (c : client) :
  consistent c ->
  (forall num_messages message_size,
      consistent (snd (send_bulk_messages w num_messages message_size c))) /\
  (forall fuel duration_seconds messages_per_second message_size,
      consistent (snd (send_variable_load fuel w duration_seconds
                                          messages_per_second message_size c))) /\
  (forall fuel, consistent (snd (main_tests fuel w c))).
Proof.
  intros Hc. split; [|split].
  - intros n size. now apply preserves_send_bulk_messages.
  - intros fuel d r size. now apply preserves_send_variable_load.
  - intros fuel. unfold main_tests.
    apply preserves_bind; [apply preserves_send_bulk_messages|
                           intros _|assumption].
    apply preserves_bind; [apply preserves_emit; reflexivity|intros _].
    apply preserves_send_variable_load.
Qed.

Lemma X17_counters_follow_completed_cycles_witness :
  consistent fresh /\
  fst (main_tests 20 sample_world fresh) = Completed /\
  consistent (snd (main_tests 20 sample_world fresh)).
Proof.
  split; [exact consistent_fresh|]. split; [vm_compute; reflexivity|].
  exact (proj2 (proj2 (X17_counters_follow_completed_cycles
                         sample_world fresh consistent_fresh)) 20%nat).
Defined.

End ClientRuns.

(** ** Reports at their edges *)

Section ReportEdges.

(** X9: [display_metrics] raises in exactly one situation, on the client
    and on the server: messages were counted, [start_time] is set and
    [end_time] is still [None] (a run cut short before its end was
    recorded), where [end_time - start_time] is a [TypeError]; in every
    other state the report is produced.  The server's [cleanup] sets
    [end_time] first and so always produces its report. *)
Theorem X9_report_raises_only_without_end_time :
  (forall m : TCPClient.metrics,
      Py.len (TCPClient.latencies m) < 2 ^ 46 ->
      (0 < TCPClient.total_messages_sent m /\
       Py.truthy (TCPClient.start_time m) = true /\
       TCPClient.end_time m = None ->
       TCPClient.display_metrics m = Py.Raise Py.TypeError) /\
      (~ (0 < TCPClient.total_messages_sent m /\
          Py.truthy (TCPClient.start_time m) = true /\
          TCPClient.end_time m = None) ->
       exists r, TCPClient.display_metrics m = Py.Ok r)) /\
  (forall m : TCPServer.metrics,
      (0 < TCPServer.total_messages m /\
       Py.truthy (TCPServer.start_time m) = true /\
       TCPServer.end_time m = None ->
       TCPServer.display_metrics m = Py.Raise Py.TypeError) /\
      (~ (0 < TCPServer.total_messages m /\
          Py.truthy (TCPServer.start_time m) = true /\
          TCPServer.end_time m = None) ->
       exists r, TCPServer.display_metrics m = Py.Ok r)) /\
  (forall (t : Q) (m : TCPServer.metrics),
      exists r,
        TCPServer.cleanup t m = Py.Ok r /\
        TCPServer.connections r = TCPServer.total_connections m /\
        TCPServer.messages r = TCPServer.total_messages m /\
        TCPServer.bytes r = TCPServer.total_bytes_received m).
Proof.
  split; [|split].
  - intros m Hlen.
    destruct (latency_statistics_total _ Hlen) as (lat & Hlat & _).
    unfold TCPClient.display_metrics, TCPClient.throughput_statistics.
    rewrite Hlat. cbn [TCPClient.try]. split.
    + intros (Hpos & Htr & Hend). rewrite Htr, Hend.
      destruct (Z.ltb_spec 0 (TCPClient.total_messages_sent m)); [|lia].
      cbn [andb]. destruct (TCPClient.start_time m); reflexivity.
    + intros Hnot.
      destruct (Z.ltb_spec 0 (TCPClient.total_messages_sent m)) as [Hpos|];
        [|cbn [andb TCPClient.try]; eexists; reflexivity].
      destruct (Py.truthy (TCPClient.start_time m)) eqn:Htr;
        [|cbn [andb TCPClient.try]; eexists; reflexivity].
      cbn [andb].
      destruct (TCPClient.start_time m) as [s0|]; [|discriminate].
      destruct (TCPClient.end_time m) as [e|]; [|tauto].
      destruct (Qlt_le_dec 0 (e - s0)); cbn [TCPClient.try];
        eexists; reflexivity.
  - intros m. unfold TCPServer.display_metrics. split.
    + intros (Hpos & Htr & Hend). rewrite Htr, Hend.
      destruct (Z.ltb_spec 0 (TCPServer.total_messages m)); [|lia].
      cbn [andb]. destruct (TCPServer.start_time m); reflexivity.
    + intros Hnot.
      destruct (Z.ltb_spec 0 (TCPServer.total_messages m)) as [Hpos|];
        [|cbn [andb]; eexists; reflexivity].
      destruct (Py.truthy (TCPServer.start_time m)) eqn:Htr;
        [|cbn [andb]; eexists; reflexivity].
      cbn [andb].
      destruct (TCPServer.start_time m) as [s0|]; [|discriminate].
      destruct (TCPServer.end_time m) as [e|]; [|tauto].
      destruct (Qlt_le_dec 0 (e - s0)); eexists; reflexivity.
  - intros t m. unfold TCPServer.cleanup, TCPServer.display_metrics.
    cbn [TCPServer.set_end_time TCPServer.start_time TCPServer.end_time
         TCPServer.total_messages TCPServer.total_connections
         TCPServer.total_bytes_received].
    destruct (TCPServer.start_time m) as [s0|].
    + destruct ((0 <? TCPServer.total_messages m) && Py.truthy (Some s0)).
      * destruct (Qlt_le_dec 0 (t - s0)); eexists; repeat split.
      * eexists. repeat split.
    + cbn [Py.truthy]. rewrite andb_false_r. eexists. repeat split.
Qed.

Lemma X9_report_raises_only_without_end_time_witness :
  TCPClient.display_metrics
    (TCPClient.mkMetrics 1 4 [1 # 1000]%Q [1000%Q] (Some 1000%Q) None 0)
  = Py.Raise Py.TypeError.
Proof.
  apply (proj1 (proj1 X9_report_raises_only_without_end_time
                      (TCPClient.mkMetrics 1 4 [1 # 1000]%Q [1000%Q]
                                           (Some 1000%Q) None 0)
                      ltac:(reflexivity))).
  repeat split.
Defined.

(** The extremes are elements of the list. *)
Lemma fold_max_In xs : forall a,
  In (fold_left (fun a b => if Qlt_le_dec a b then b else a) xs a) (a :: xs).
Proof.
  induction xs as [|x xs IH]; intros a; cbn [fold_left].
  - now left.
  - destruct (Qlt_le_dec a x).
    + right. apply IH.
    + destruct (IH a) as [H|H]; [now left|right; now right].
Qed.

Lemma max_In l a : Py.max l = Py.Ok a -> In a l.
Proof.
  destruct l as [|x xs]; [discriminate|]. cbn [Py.max].
  intros H. injection H as <-. apply fold_max_In.
Qed.

(** The last element of the sorted samples is their maximum. *)
Lemma sorted_last_is_max (ms : list Q) (x hi : Q) :
  nth_error (Py.sorted ms) (pred (length ms)) = Some x ->
  Py.max ms = Py.Ok hi -> Forall (fun y => (y <= hi)%Q) ms ->
  (x == hi)%Q.
Proof.
  intros Hx Hmax Hhi.
  pose proof (sorted_Permutation ms) as Hperm.
  pose proof (sorted_StronglySorted ms) as Hs.
  apply Qle_antisym.
  - rewrite Forall_forall in Hhi. apply Hhi.
    apply (Permutation_in _ Hperm). eapply nth_error_In. exact Hx.
  - apply max_In in Hmax.
    apply (Permutation_in _ (Permutation_sym Hperm)) in Hmax.
    apply In_nth_error in Hmax as [i Hi].
    assert (Hlt : (i < length (Py.sorted ms))%nat)
      by (apply nth_error_Some; congruence).
    rewrite sorted_length in Hlt.
    eapply StronglySorted_nth_error; [exact Hs| |exact Hi|exact Hx]. lia.
Qed.

(** X10: with at most 100 samples the reported p99 is the maximum latency
    (so it is for the 100 messages of the bulk test of [main]); with at
    most 20 samples so is p95, and with at most 2 so is p50. *)
Theorem X10_high_percentiles_are_the_maximum (latencies : list Q) :
  latencies <> [] -> Py.len latencies <= 100 ->
  exists st,
    TCPClient.latency_statistics latencies = Py.Ok (Some st) /\
    (TCPClient.p99 st == TCPClient.max_latency st)%Q /\
    (Py.len latencies <= 20 ->
     (TCPClient.p95 st == TCPClient.max_latency st)%Q) /\
    (Py.len latencies <= 2 ->
     (TCPClient.p50 st == TCPClient.max_latency st)%Q).
Proof.
  intros Hne Hlen.
  assert (Hn : 0 < Py.len latencies) by now apply len_pos.
  destruct (latency_statistics_spec latencies Hne ltac:(lia))
    as (lo & hi & x50 & x95 & x99 & Hst & _ & Hhi & H50 & H95 & H99 & _).
  set (ms := map TCPClient.to_ms latencies) in *.
  set (n := Py.len latencies) in *.
  assert (Hlast : Z.to_nat (n - 1) = pred (length ms)).
  { subst n ms. unfold Py.len. rewrite length_map. lia. }
  assert (Hmaxms : Py.max ms = Py.Ok hi).
  { revert Hst. unfold TCPClient.latency_statistics. fold n.
    destruct (Z.ltb_spec 0 n) as [_|?]; [|lia]. cbv zeta. fold ms.
    destruct (Py.min ms); [|discriminate]. cbn [TCPClient.try].
    destruct (Py.max ms) as [hi'|]; [|discriminate]. cbn [TCPClient.try].
    repeat match goal with
           | |- context [Py.index ?l ?i] =>
             destruct (Py.index l i); [|discriminate]
           end; cbn [TCPClient.try].
    intros H. inversion H. reflexivity. }
  eexists. split; [exact Hst|].
  cbn [TCPClient.p50 TCPClient.p95 TCPClient.p99 TCPClient.max_latency].
  split; [|split].
  - replace (99 * n / 100) with (n - 1) in H99.
    + rewrite Hlast in H99. now apply (sorted_last_is_max ms).
    + apply (Z.div_unique_pos _ _ _ (100 - n)); lia.
  - intros H20. replace (95 * n / 100) with (n - 1) in H95.
    + rewrite Hlast in H95. now apply (sorted_last_is_max ms).
    + apply (Z.div_unique_pos _ _ _ (100 - 5 * n)); lia.
  - intros H2. replace (n / 2) with (n - 1) in H50.
    + rewrite Hlast in H50. now apply (sorted_last_is_max ms).
    + apply (Z.div_unique_pos _ _ _ (2 - n)); lia.
Qed.

Lemma X10_high_percentiles_are_the_maximum_witness :
  [3 # 1000; 1 # 1000; 2 # 1000]%Q <> [] /\
  exists st,
    TCPClient.latency_statistics [3 # 1000; 1 # 1000; 2 # 1000]%Q
    = Py.Ok (Some st) /\
    (TCPClient.p99 st == TCPClient.max_latency st)%Q.
Proof.
  split; [discriminate|].
  destruct (X10_high_percentiles_are_the_maximum
              [3 # 1000; 1 # 1000; 2 # 1000]%Q
              ltac:(discriminate) ltac:(discriminate))
    as (st & Hst & H99 & _).
  exists st. split; assumption.
Defined.

End ReportEdges.

(** ** Whole runs of the server *)

Section ServerRuns.
Import TCPServer.

(** X11: what a handler leaves in the metrics when it runs by itself.
    Every acknowledgment sent answers a counted payload, and at most one
    counted payload goes unanswered (the one whose [send] raised; none when
    the handler is still waiting); one timestamp is appended per counted
    payload; every counted payload has at least one byte, and at most 4096
    when [recv] honours its bound, so the average message size of the
    report lies between 1 and 4096; [total_connections], [start_time] and
    [end_time] are left alone. *)
Theorem X11_handler_accounting (m : metrics) (script : list turn) :
  let '(m', out, st) := handle_client m script in
  let counted := total_messages m' - total_messages m in
  let received := total_bytes_received m' - total_bytes_received m in
  Z.of_nat (length (acks_sent out)) <= counted
  <= Z.of_nat (length (acks_sent out)) + 1 /\
  (st = Waiting -> counted = Z.of_nat (length (acks_sent out))) /\
  Py.len (message_timestamps m') = Py.len (message_timestamps m) + counted /\
  counted <= received /\
  (recv_bounded script -> received <= 4096 * counted) /\
  total_connections m' = total_connections m /\
  start_time m' = start_time m /\ end_time m' = end_time m.
Proof.
  revert m. induction script as [|t rest IH]; intros m.
  - cbv zeta. cbn [handle_client acks_sent flat_map length].
    repeat split; intros; lia.
  - cbn [handle_client].
    destruct (recv t) as [[|b data]|] eqn:Hr.
    + cbv zeta. cbn [acks_sent flat_map length app].
      repeat split; intros; lia.
    + destruct (sent t).
      * specialize (IH (record_receive (b :: data) (now t) m)).
        destruct (handle_client (record_receive (b :: data) (now t) m) rest)
          as [[m' out] st].
        cbv zeta in IH |- *. rewrite acks_sent_payload. cbn [length].
        rewrite record_receive_fields in IH.
        cbn [total_messages total_bytes_received message_timestamps
             total_connections start_time end_time] in IH.
        destruct IH as (H1 & H2 & H3 & H4 & H5 & H6 & H7 & H8).
        assert (Hlen : 1 <= Py.len (b :: data))
          by (unfold Py.len; cbn [length]; lia).
        unfold Py.len in H3. rewrite length_app in H3. cbn [length] in H3.
        unfold Py.len.
        repeat split; try lia; try assumption.
        -- intros Hw. specialize (H2 Hw). lia.
        -- intros Hb. inversion Hb as [|? ? Ht Hrest]; subst.
           rewrite Hr in Ht. specialize (H5 Hrest).
           unfold Py.len in *. lia.
      * rewrite acks_sent_line, record_receive_fields.
        cbn [acks_sent flat_map app length total_messages
             total_bytes_received message_timestamps total_connections
             start_time end_time].
        assert (Hlen : 1 <= Py.len (b :: data))
          by (unfold Py.len; cbn [length]; lia).
        unfold Py.len in *. rewrite length_app. cbn [length] in *.
        repeat split; try lia; try discriminate.
        intros Hb. inversion Hb as [|? ? Ht Hrest]; subst.
        rewrite Hr in Ht. unfold Py.len in Ht. cbn [length] in Ht. lia.
    + cbv zeta. cbn [acks_sent flat_map length app].
      repeat split; intros; lia.
Qed.

Lemma acks_sent_app a b : acks_sent (a ++ b) = acks_sent a ++ acks_sent b.
Proof. apply flat_map_app. Qed.

Lemma map_snd_pair {A B : Type} (a : A) (l : list B) :
  map snd (map (pair a) l) = l.
Proof. rewrite map_map. cbn. apply map_id. Qed.

(** X12: when the handlers of several connections take turns one whole
    payload at a time, the numbers of the acknowledgments the server sends,
    over all its connections and in the order it sends them, are strictly
    increasing: no two connections ever get the same number, and each
    number lies between the count before and the count after. *)
Theorem X12_serial_ack_numbers_increase (turns : list (nat * turn)) :
  forall s0 s,
    run s0 (serial turns) = Some s ->
    total_messages (shared s0) <= total_messages (shared s) /\
    exists new ns,
      outputs s = outputs s0 ++ new /\
      acks_sent (map snd new) = map ack_for ns /\
      StronglySorted Z.lt ns /\
      Forall (fun n => total_messages (shared s0) < n
                       <= total_messages (shared s)) ns.
Proof.
  induction turns as [|[tid t] turns IH]; intros s0 s Hrun.
  - cbn in Hrun. injection Hrun as <-. split; [lia|].
    exists [], []. rewrite app_nil_r. repeat split; constructor.
  - unfold serial in Hrun. cbn [flat_map fst snd] in Hrun.
    fold (serial turns) in Hrun. rewrite run_app in Hrun.
    destruct (run s0 (turn_actions tid t)) as [s1|] eqn:H1; [|discriminate].
    destruct (IH s1 s Hrun) as (Hle & new2 & ns2 & Ho2 & Ha2 & Hs2 & Hb2).
    pose proof (run_turn _ _ _ _ H1) as [Hp Hsh].
    pose proof (handle_client_one_turn s0 tid t Hp) as Hone.
    cbn [handle_client] in Hone.
    destruct (recv t) as [[|b data]|].
    + destruct Hone as (s' & Hr' & _ & Ho & _). rewrite H1 in Hr'.
      injection Hr' as <-. rewrite Hsh in *. split; [lia|].
      exists (map (pair tid) [SocketClose; PrintClosed] ++ new2), ns2.
      rewrite Ho2, Ho, <- app_assoc, map_app, map_snd_pair, acks_sent_app.
      repeat split; assumption.
    + rewrite Hsh, record_receive_fields in Hle, Hb2.
      cbn [total_messages] in Hle, Hb2.
      destruct (sent t).
      * destruct Hone as (s' & Hr' & _ & Ho & _). rewrite H1 in Hr'.
        injection Hr' as <-. split; [lia|].
        match type of Ho with
        | _ = _ ++ ?new1 =>
          exists (new1 ++ new2), (total_messages (shared s0) + 1 :: ns2)
        end.
        rewrite Ho2, Ho, <- app_assoc, map_app, map_snd_pair, acks_sent_app.
        rewrite acks_sent_payload. cbn [acks_sent flat_map app map].
        fold (acks_sent (map snd new2)). rewrite Ha2.
        unfold ack_text. rewrite record_receive_fields.
        cbn [total_messages]. repeat split.
        -- constructor; [assumption|].
           eapply Forall_impl; [|exact Hb2]. intros n Hn. cbv beta in Hn. lia.
        -- constructor; [lia|].
           eapply Forall_impl; [|exact Hb2]. intros n Hn. cbv beta in Hn. lia.
      * destruct Hone as (s' & Hr' & _ & Ho & _). rewrite H1 in Hr'.
        injection Hr' as <-. split; [lia|].
        match type of Ho with
        | _ = _ ++ ?new1 => exists (new1 ++ new2), ns2
        end.
        rewrite Ho2, Ho, <- app_assoc, map_app, map_snd_pair, acks_sent_app.
        rewrite acks_sent_line. cbn [acks_sent flat_map app].
        repeat split; try assumption.
        eapply Forall_impl; [|exact Hb2]. intros n Hn. cbv beta in Hn. lia.
    + destruct Hone as (s' & Hr' & _ & Ho & _). rewrite H1 in Hr'.
      injection Hr' as <-. rewrite Hsh in *. split; [lia|].
      match type of Ho with
      | _ = _ ++ ?new1 => exists (new1 ++ new2), ns2
      end.
      rewrite Ho2, Ho, <- app_assoc, map_app, map_snd_pair, acks_sent_app.
      repeat split; assumption.
Qed.

Lemma X12_serial_ack_numbers_increase_witness :
  exists s,
    run (mkServer (mkMetrics 2 0 0 (Some 100%Q) None []) [AtRecv; AtRecv] [])
        (serial [(0%nat, mkTurn (Recv [x61]) 101%Q Printed Sent);
                 (1%nat, mkTurn (Recv [x62]) 102%Q Printed Sent);
                 (0%nat, mkTurn (Recv [x63]) 103%Q Printed Sent)])
    = Some s /\
    acks_sent (map snd (outputs s)) = map ack_for [1; 2; 3] /\
    exists new ns,
      outputs s = [] ++ new /\
      acks_sent (map snd new) = map ack_for ns /\
      StronglySorted Z.lt ns.
Proof.
  destruct (run (mkServer (mkMetrics 2 0 0 (Some 100%Q) None [])
                          [AtRecv; AtRecv] [])
                (serial [(0%nat, mkTurn (Recv [x61]) 101%Q Printed Sent);
                         (1%nat, mkTurn (Recv [x62]) 102%Q Printed Sent);
                         (0%nat, mkTurn (Recv [x63]) 103%Q Printed Sent)]))
    as [s|] eqn:Hs; [|vm_compute in Hs; discriminate].
  exists s. split; [reflexivity|].
  destruct (X12_serial_ack_numbers_increase _ _ _ Hs)
    as (_ & new & ns & Ho & Ha & Hsorted & _).
  split.
  - vm_compute in Hs. injection Hs as <-. vm_compute. reflexivity.
  - exists new, ns. repeat split; assumption.
Defined.

(** *** Under every schedule *)

Lemma pending_messages_app a b :
  pending_messages (a ++ b) = pending_messages a + pending_messages b.
Proof.
  unfold pending_messages.
  induction a as [|x a IH]; cbn [app fold_right]; lia.
Qed.

Lemma pending_bytes_app a b :
  pending_bytes (a ++ b) = pending_bytes a + pending_bytes b.
Proof.
  unfold pending_bytes.
  induction a as [|x a IH]; cbn [app fold_right]; lia.
Qed.

Lemma unbilled_nonneg p : 0 <= unbilled p.
Proof. destruct p; cbn; unfold Py.len; lia. Qed.

Lemma pending_nonneg ts : 0 <= pending_messages ts /\ 0 <= pending_bytes ts.
Proof.
  unfold pending_messages, pending_bytes.
  induction ts as [|p ts [IH1 IH2]]; cbn [fold_right]; [lia|].
  pose proof (unbilled_nonneg p). destruct p; cbn [uncounted]; lia.
Qed.

Lemma within_weaken K KB T B K' KB' T' B' ts :
  K' - T' <= K - T -> KB' - B' <= KB - B ->
  Forall (within K KB T B) ts -> Forall (within K' KB' T' B') ts.
Proof.
  intros HK HB. apply Forall_impl. intros p.
  destruct p; cbn [within]; lia.
Qed.

(** The effect of one operation of the thread in the middle of the list. *)
Lemma never_ahead_middle T B T' B' m m' l1 p q l2 out out' :
  never_ahead T B (mkServer m (l1 ++ p :: l2) out) ->
  let K' := pending_messages (l1 ++ q :: l2) in
  let KB' := pending_bytes (l1 ++ q :: l2) in
  total_messages m' + K' <= T' ->
  total_bytes_received m' + KB' <= B' ->
  K' - T' <= pending_messages (l1 ++ p :: l2) - T ->
  KB' - B' <= pending_bytes (l1 ++ p :: l2) - B ->
  within K' KB' T' B' q ->
  never_ahead T' B' (mkServer m' (l1 ++ q :: l2) out').
Proof.
  intros (H1 & H2 & H3) K' KB' Hm Hb HK HKB Hq.
  cbn [shared threads] in *. unfold never_ahead. cbn [shared threads].
  fold K' KB'. split; [exact Hm|]. split; [exact Hb|].
  apply Forall_app in H3 as [Ha Hb3].
  inversion Hb3 as [|? ? _ Hc]; subst.
  apply Forall_app. split; [|constructor; [exact Hq|]];
    eapply within_weaken; eauto.
Qed.

Lemma never_ahead_step T B s a s' :
  never_ahead T B s -> step s a = Some s' ->
  never_ahead (T + Py.len (received [a])) (B + total_len (received [a])) s'.
Proof.
  intros Hinv. destruct a as [|tid i]; cbn [step].
  - intros Hs. injection Hs as <-.
    destruct Hinv as (H1 & H2 & H3). unfold never_ahead.
    change (received [Accept]) with (@nil (list byte)).
    change (Py.len (@nil (list byte))) with 0.
    change (total_len []) with 0. rewrite !Z.add_0_r.
    cbn [shared threads set_total_connections total_messages
         total_bytes_received].
    rewrite pending_messages_app, pending_bytes_app.
    change (pending_messages [AtRecv]) with 0.
    change (pending_bytes [AtRecv]) with 0. rewrite !Z.add_0_r.
    split; [exact H1|]. split; [exact H2|].
    apply Forall_app. split; [exact H3|repeat constructor].
  - destruct (nth_error (threads s) tid) as [p|] eqn:Hp; [|discriminate].
    destruct (step_handler (shared s) p i) as [[[m p'] out]|] eqn:Hh;
      [|discriminate].
    intros Hs. injection Hs as <-.
    apply nth_error_split in Hp as (l1 & l2 & Hts & Hlen). subst tid.
    destruct s as [m0 ts out0]. cbn [threads shared outputs] in *. subst ts.
    rewrite set_thread_middle.
    pose proof (pending_nonneg l1) as [Hl1 Hl1b].
    pose proof (pending_nonneg l2) as [Hl2 Hl2b].
    pose proof Hinv as (H1 & H2 & H3). cbn [shared threads] in H1, H2, H3.
    assert (Hp3 : within (pending_messages (l1 ++ p :: l2))
                         (pending_bytes (l1 ++ p :: l2)) T B p).
    { apply Forall_app in H3 as [_ H3]. now inversion H3. }
    clear H3.
    assert (E1 : pending_messages (l1 ++ p :: l2)
                 = pending_messages l1 + (uncounted p + pending_messages l2))
      by (rewrite pending_messages_app; reflexivity).
    assert (E2 : pending_bytes (l1 ++ p :: l2)
                 = pending_bytes l1 + (unbilled p + pending_bytes l2))
      by (rewrite pending_bytes_app; reflexivity).
    rewrite E1 in H1, Hp3. rewrite E2 in H2, Hp3.
    destruct p, i; cbn [step_handler] in Hh; try discriminate;
      repeat match type of Hh with
             | context [match ?r with _ => _ end] => destruct r
             end;
      apply Some_inj in Hh;
      injection Hh as <- <- _;
      (eapply never_ahead_middle; [exact Hinv | ..]);
      rewrite ?pending_messages_app, ?pending_bytes_app;
      repeat match goal with
             | |- context [pending_messages (?q :: l2)] =>
               change (pending_messages (q :: l2))
                 with (uncounted q + pending_messages l2)
             | |- context [pending_bytes (?q :: l2)] =>
               change (pending_bytes (q :: l2))
                 with (unbilled q + pending_bytes l2)
             end;
      cbn [uncounted unbilled within received flat_map app
           append_timestamp set_total_bytes_received set_total_messages
           total_messages total_bytes_received] in *;
      unfold total_len; cbn [fold_right];
      unfold Py.len in *; cbn [length] in *; try lia; exact I.
Qed.

Lemma received_total_len_app a b :
  total_len (a ++ b) = total_len a + total_len b.
Proof.
  unfold total_len. induction a as [|x a IH]; cbn [app fold_right]; lia.
Qed.

Lemma never_ahead_run sched : forall T B s s',
  never_ahead T B s -> run s sched = Some s' ->
  never_ahead (T + Py.len (received sched)) (B + total_len (received sched))
              s'.
Proof.
  induction sched as [|a sched IH]; intros T B s s' Hinv; cbn [run].
  - intros Hs. injection Hs as <-. cbn. rewrite !Z.add_0_r. exact Hinv.
  - destruct (step s a) as [s1|] eqn:Hs; [|discriminate]. intros Hrun.
    pose proof (IH _ _ _ _ (never_ahead_step _ _ _ _ _ Hinv Hs) Hrun) as H.
    change (a :: sched) with ([a] ++ sched).
    rewrite received_app, received_total_len_app.
    unfold Py.len in *. rewrite length_app, Nat2Z.inj_add, !Z.add_assoc.
    exact H.
Qed.

Lemma never_ahead_quiescent s :
  quiescent s ->
  never_ahead (total_messages (shared s)) (total_bytes_received (shared s)) s.
Proof.
  unfold quiescent, never_ahead. intros Hq.
  assert (H0 : pending_messages (threads s) = 0 /\
               pending_bytes (threads s) = 0).
  { unfold pending_messages, pending_bytes.
    induction Hq as [|p ts [-> | ->] Hq [IH1 IH2]]; cbn; lia. }
  destruct H0 as [-> ->]. repeat split; try lia.
  eapply Forall_impl; [|exact Hq]. intros p [-> | ->]; exact I.
Qed.

(** X13: under every schedule, however the handlers are interleaved, the
    server never counts more than it has received: from a state whose
    handlers are between payloads, [total_messages] grows by at most the
    number of payloads received and [total_bytes_received] by at most
    their total length.  An unguarded update can lose counts; it cannot
    invent them. *)
Theorem X13_never_counts_more_than_received (s0 s : server)
    (sched : list action) :
  quiescent s0 -> run s0 sched = Some s ->
  total_messages (shared s)
  <= total_messages (shared s0) + Py.len (received sched) /\
  total_bytes_received (shared s)
  <= total_bytes_received (shared s0) + total_len (received sched).
Proof.
  intros Hq Hrun.
  destruct (never_ahead_run sched _ _ _ _ (never_ahead_quiescent s0 Hq) Hrun)
    as (H1 & H2 & _).
  destruct (pending_nonneg (threads s)). lia.
Qed.

Lemma X13_never_counts_more_than_received_witness :
  quiescent (started 100%Q) /\
  exists s,
    run (started 100%Q) race = Some s /\
    total_messages (shared s)
    <= total_messages (shared (started 100%Q)) + Py.len (received race).
Proof.
  assert (Hq : quiescent (started 100%Q)) by constructor.
  split; [exact Hq|].
  destruct (run (started 100%Q) race) as [s|] eqn:Hs;
    [|vm_compute in Hs; discriminate].
  exists s. split; [reflexivity|].
  exact (proj1 (X13_never_counts_more_than_received _ _ _ Hq Hs)).
Defined.

Lemma set_thread_length tid p ts : length (set_thread tid p ts) = length ts.
Proof.
  revert tid. induction ts as [|q ts IH]; intros [|tid]; cbn; auto.
Qed.

(** X14: every accepted connection gets one handler thread and keeps it:
    under every schedule the number of handler threads grows by the number
    of connections accepted; from a server that has just started it equals
    [total_connections]. *)
Theorem X14_one_handler_per_connection (sched : list action) :
  forall s0 s,
    run s0 sched = Some s ->
    Z.of_nat (length (threads s)) - total_connections (shared s)
    = Z.of_nat (length (threads s0)) - total_connections (shared s0).
Proof.
  induction sched as [|a sched IH]; intros s0 s; cbn [run].
  - intros Hs. injection Hs as <-. reflexivity.
  - destruct (step s0 a) as [s1|] eqn:Hs; [|discriminate]. intros Hrun.
    rewrite (IH _ _ Hrun).
    pose proof (step_connections _ _ _ Hs) as Hc. rewrite Hc.
    destruct a as [|tid i]; cbn [step] in Hs.
    + injection Hs as <-. cbn [threads accepts flat_map app].
      unfold Py.len. rewrite length_app. cbn [length]. lia.
    + destruct (nth_error (threads s0) tid) as [p|]; [|discriminate].
      destruct (step_handler (shared s0) p i) as [[[m p'] out]|];
        [|discriminate].
      injection Hs as <-. cbn [threads accepts flat_map app].
      rewrite set_thread_length. unfold Py.len. cbn [length]. lia.
Qed.

Lemma X14_one_handler_per_connection_witness :
  exists s,
    run (started 100%Q) race = Some s /\
    Z.of_nat (length (threads s)) = total_connections (shared s).
Proof.
  destruct (run (started 100%Q) race) as [s|] eqn:Hs;
    [|vm_compute in Hs; discriminate].
  exists s. split; [reflexivity|].
  pose proof (X14_one_handler_per_connection _ _ _ Hs) as H.
  cbn [started threads shared set_start_time init total_connections length]
    in H.
  lia.
Defined.

End ServerRuns.
